(** * PDF-to-Notion: the text-to-block reflow pipeline

    A shallow embedding of the decision logic of the repository:

    - [StrategyA.textToNotionBlocks]  (front end, [App.tsx]): split a flat
      text into paragraphs and classify each one;
    - [StrategyB.parsePDF]            (older [server.js]): group positioned
      fragments into lines, detect repeated headers/footers, classify the
      remaining lines by font height;
    - [Publish.toNotionBlock]         ([/api/notion/create] handlers);
    - [Salvage.salvage]               ([/api/ai/structure] handler): recover
      plain text from a possibly JSON-shaped model response.

    JavaScript strings are sequences of UTF-16 code units, numbers are
    IEEE-754 binary64 values; both are modelled as such. *)

From Stdlib Require Import Strings.String Strings.Ascii.
From Stdlib Require Import Init.Datatypes List Bool Arith NArith ZArith Lia.
From Stdlib Require Import Permutation.
From Stdlib Require Import Floats.SpecFloat.
Import ListNotations.

Set Implicit Arguments.
Set Warnings "-register-all".

(* ================================================================== *)
(** ** JavaScript strings *)
(* ================================================================== *)

Module JS.

(** A UTF-16 code unit.  [String.prototype.length] counts code units, so
    the bullet U+2022 has length one. *)
Definition char16 := N.

Definition jstring := list char16.

(** Code units of an ASCII literal. *)
Definition s2j (s : string) : jstring :=
  map N_of_ascii (list_ascii_of_string s).

Arguments s2j s%_string.

Definition LF : char16 := 10%N.
Definition SPACE : char16 := 32%N.
Definition PERIOD : char16 := 46%N.
Definition HYPHEN : char16 := 45%N.
Definition BULLET : char16 := 8226%N.
Definition BACKTICK : char16 := 96%N.

(** The blank-line separator ["\n\n"]. *)
Definition NN : list char16 := [LF; LF].

Definition eqb (a b : jstring) : bool :=
  if list_eq_dec N.eq_dec a b then true else false.

(** ECMAScript [WhiteSpace] and [LineTerminator] code points: the set
    stripped by [String.prototype.trim] and matched by the regular
    expression class [\s]. *)
Definition isWhiteSpace (c : char16) : bool :=
  ((9 <=? c) && (c <=? 13) || (c =? 32) || (c =? 160) || (c =? 5760)
   || (8192 <=? c) && (c <=? 8202) || (c =? 8232) || (c =? 8233)
   || (c =? 8239) || (c =? 8287) || (c =? 12288) || (c =? 65279))%N.

Fixpoint trimStart (s : jstring) : jstring :=
  match s with
  | [] => []
  | c :: s' => if isWhiteSpace c then trimStart s' else s
  end.

Definition trimEnd (s : jstring) : jstring := rev (trimStart (rev s)).

(** [s.trim()] *)
Definition trim (s : jstring) : jstring := trimEnd (trimStart s).

Fixpoint isPrefix (p s : jstring) : bool :=
  match p, s with
  | [], _ => true
  | _ :: _, [] => false
  | a :: p', b :: s' => (a =? b)%N && isPrefix p' s'
  end.

(** [s.startsWith(p)] and [s.endsWith(p)] *)
Definition startsWith (s p : jstring) : bool := isPrefix p s.
Definition endsWith (s p : jstring) : bool := isPrefix (rev p) (rev s).

(** Prepend a code unit to the first piece of a list of pieces. *)
Definition consHead (c : char16) (ps : list jstring) : list jstring :=
  match ps with
  | [] => [[c]]
  | p :: ps' => (c :: p) :: ps'
  end.

(** [s.split(sep)] for a non-empty separator: the pieces between the
    successive leftmost, non-overlapping occurrences of [sep].  [skip]
    counts the code units of a matched separator still to be passed. *)
Fixpoint split_go (sep : jstring) (skip : nat) (s : jstring) : list jstring :=
  match s with
  | [] => [[]]
  | c :: s' =>
      match skip with
      | S k => split_go sep k s'
      | O =>
          if isPrefix sep s
          then [] :: split_go sep (length sep - 1) s'
          else consHead c (split_go sep 0 s')
      end
  end.

Definition split (s sep : jstring) : list jstring := split_go sep 0 s.

(** [arr.join(sep)] on an array of strings *)
Fixpoint join (sep : jstring) (ps : list jstring) : jstring :=
  match ps with
  | [] => []
  | [p] => p
  | p :: ps' => p ++ sep ++ join sep ps'
  end.

(** Truthiness of a string: non-empty. *)
Definition truthy (s : jstring) : bool :=
  match s with [] => false | _ :: _ => true end.

(** Does [sep] occur in [s] as a contiguous run? *)
Fixpoint occurs (sep s : jstring) : bool :=
  isPrefix sep s ||
  match s with
  | [] => false
  | _ :: s' => occurs sep s'
  end.

End JS.

Import JS.

(* ================================================================== *)
(** ** Blocks *)
(* ================================================================== *)

(** A block as both strategies build it: [{ type, text }], the type being
    one of the string tags the publishing API uses. *)
Record block : Type := mkBlock { btype : jstring; btext : jstring }.

Definition heading_2 : jstring := s2j "heading_2".
Definition bulleted_list_item : jstring := s2j "bulleted_list_item".
Definition paragraph : jstring := s2j "paragraph".

(* ================================================================== *)
(** ** Strategy A: paragraph reflow ([textToNotionBlocks]) *)
(* ================================================================== *)

Module StrategyA.

(** [s.replace(/^[•-]\s*/, '')]: one leading marker and the white space
    that follows it. *)
Definition stripMarker (s : jstring) : jstring :=
  match s with
  | [] => []
  | c :: s' => if ((c =? BULLET) || (c =? HYPHEN))%N then trimStart s' else s
  end.

(** [text.split('\n\n').filter(p => p.trim())] *)
Definition paragraphs (text : jstring) : list jstring :=
  filter (fun p => truthy (trim p)) (split text NN).

(** [paragraph.length < 100 && !paragraph.endsWith('.')] *)
Definition looksLikeHeading (p : jstring) : bool :=
  (length p <? 100) && negb (endsWith p [PERIOD]).

(** The callback of [paragraphs.map]: the heading test reads the segment
    as split, the bullet test and the emitted text read it trimmed. *)
Definition classify (p : jstring) : block :=
  if looksLikeHeading p
  then mkBlock heading_2 (trim p)
  else if startsWith (trim p) [BULLET] || startsWith (trim p) [HYPHEN]
  then mkBlock bulleted_list_item (stripMarker (trim p))
  else mkBlock paragraph (trim p).

Definition textToNotionBlocks (text : jstring) : list block :=
  map classify (paragraphs text).

End StrategyA.

Import StrategyA.

(* ================================================================== *)
(** ** JavaScript numbers *)
(* ================================================================== *)

Module Double.

(** IEEE-754 binary64, through the Standard Library's executable
    specification of floating-point arithmetic. *)
Definition prec : Z := 53.
Definition emax : Z := 1024.

Definition num := spec_float.

Definition ofZ (z : Z) : num := binary_normalize prec emax z 0 false.
Definition ofNat (n : nat) : num := ofZ (Z.of_nat n).

(** The literal [0.7]: the double nearest to 7/10,
    6305039478318694 * 2^-53. *)
Definition c0_7 : num := S754_finite false 6305039478318694 (-53).
Definition two : num := ofZ 2.
Definition ten : num := ofZ 10.

Definition mul : num -> num -> num := SFmul prec emax.
Definition sub : num -> num -> num := SFsub prec emax.

(** [Math.floor] *)
Definition floor (x : num) : num :=
  match x with
  | S754_finite s m e =>
      if (0 <=? e)%Z then x
      else binary_normalize prec emax
             (Z.shiftr (if s then Z.neg m else Z.pos m) (- e)) 0 false
  | _ => x
  end.

(** One step of [Math.max]: NaN is contagious and [+0] is above [-0]. *)
Definition max2 (a b : num) : num :=
  match SFcompare a b with
  | None => S754_nan
  | Some Lt => b
  | Some Gt => a
  | Some Eq => match a with S754_zero true => b | _ => a end
  end.

(** [Math.max(...l)] *)
Definition Math_max (l : list num) : num :=
  fold_left max2 l (S754_infinity true).

(** [Math.floor(n * 0.7)] for an array length [n]. *)
Definition threshold (n : nat) : num := floor (mul (ofNat n) c0_7).

(** [count >= Math.floor(n * 0.7)] for an integer [count]. *)
Definition reaches (count n : nat) : bool := SFleb (threshold n) (ofNat count).

End Double.

Import Double.

(* ================================================================== *)
(** ** Strategy B: geometric reflow ([parsePDF], older [server.js]) *)
(* ================================================================== *)

Module StrategyB.

(** A content item of [pdf.js-extract]; only the fields read. *)
Record item : Type := mkItem { str : jstring; y : num; height : num }.

(** [page.content] *)
Definition page := list item.

Definition pushLine (lines : list (list item)) (currentLine : list item)
  : list (list item) :=
  match currentLine with
  | [] => lines
  | _ :: _ => lines ++ [currentLine]
  end.

(** The [page.content.forEach] loop with its three variables, and the
    flush after it. *)
Fixpoint groupLines_go (content : list item) (lines : list (list item))
  (currentLine : list item) (lastY : option num) : list (list item) :=
  match content with
  | [] => pushLine lines currentLine
  | it :: rest =>
      let brk :=
        match lastY with
        | Some ly => SFltb two (SFabs (sub (y it) ly))
        | None => false
        end in
      if brk
      then groupLines_go rest (pushLine lines currentLine) [it] (Some (y it))
      else groupLines_go rest lines (currentLine ++ [it]) (Some (y it))
  end.

Definition groupLines (p : page) : list (list item) :=
  groupLines_go p [] [] None.

(** [line.map(i => i.str).join(' ').trim()] *)
Definition lineText (line : list item) : jstring :=
  trim (join [SPACE] (map str line)).

(** *** The counting object of [findRepeatedLines]

    [counts] is a plain object literal: reading a key that is not an own
    property falls through to [Object.prototype]. *)

(** A property value of [counts]: a number, or the string that results
    from adding 1 to an inherited function or object. *)
Inductive count : Type :=
| Num (n : nat)
| NaS.

(** Own properties, in creation order. *)
Definition props := list (jstring * count).

(** Property names every object inherits from [Object.prototype]. *)
Definition inheritedNames : list jstring :=
  map s2j
    [ "constructor"; "__defineGetter__"; "__defineSetter__";
      "hasOwnProperty"; "__lookupGetter__"; "__lookupSetter__";
      "isPrototypeOf"; "propertyIsEnumerable"; "toString"; "valueOf";
      "__proto__"; "toLocaleString" ]%string.

Definition inherited (k : jstring) : bool :=
  existsb (JS.eqb k) inheritedNames.

Definition getOwn (o : props) (k : jstring) : option count :=
  match find (fun kv => JS.eqb (fst kv) k) o with
  | Some kv => Some (snd kv)
  | None => None
  end.

(** [o[k] = v] for a key other than [__proto__]. *)
Definition setOwn (o : props) (k : jstring) (v : count) : props :=
  match getOwn o k with
  | Some _ => map (fun kv => if JS.eqb (fst kv) k then (k, v) else kv) o
  | None => o ++ [(k, v)]
  end.

(** [if (line) counts[line] = (counts[line] || 0) + 1].  Assigning a
    string to [__proto__] is ignored by its setter. *)
Definition bump (o : props) (line : jstring) : props :=
  if truthy line then
    match getOwn o line with
    | Some (Num n) => setOwn o line (Num (S n))
    | Some NaS => setOwn o line NaS
    | None =>
        if inherited line
        then if JS.eqb line (s2j "__proto__") then o else setOwn o line NaS
        else setOwn o line (Num 1)
    end
  else o.

(** Canonical array indices: decimal numerals without leading zero, at
    most 2^32 - 2. *)
Fixpoint digits (acc : N) (s : jstring) : option N :=
  match s with
  | [] => Some acc
  | c :: s' =>
      if ((48 <=? c) && (c <=? 57))%N then digits (10 * acc + (c - 48))%N s'
      else None
  end.

Definition arrayIndex (k : jstring) : option N :=
  match k with
  | [] => None
  | c :: rest =>
      if ((c =? 48) && truthy rest)%N then None
      else match digits 0%N k with
           | Some n => if (n <? 4294967295)%N then Some n else None
           | None => None
           end
  end.

Fixpoint insertByIndex (i : N) (kv : jstring * count)
  (l : list (N * (jstring * count))) : list (N * (jstring * count)) :=
  match l with
  | [] => [(i, kv)]
  | (j, kv') :: l' =>
      if (i <? j)%N then (i, kv) :: l else (j, kv') :: insertByIndex i kv l'
  end.

Fixpoint indexed (o : props) : list (N * (jstring * count)) :=
  match o with
  | [] => []
  | kv :: o' =>
      match arrayIndex (fst kv) with
      | Some i => insertByIndex i kv (indexed o')
      | None => indexed o'
      end
  end.

Definition named (o : props) : props :=
  filter (fun kv => match arrayIndex (fst kv) with Some _ => false | None => true end) o.

(** [Object.entries(o)]: array-index keys in ascending numeric order,
    then the other keys in creation order. *)
Definition Object_entries (o : props) : props :=
  map snd (indexed o) ++ named o.

(** [count >= threshold]; a non-numeric string converts to NaN. *)
Definition atLeast (pageCount : nat) (c : count) : bool :=
  match c with
  | Num n => reaches n pageCount
  | NaS => false
  end.

(** [findRepeatedLines], with [data.pages.length] made a parameter. *)
Definition findRepeatedLines (pageCount : nat) (linesArr : list jstring)
  : list jstring :=
  map fst
    (filter (fun kv => atLeast pageCount (snd kv))
       (Object_entries (fold_left bump linesArr []))).

(** [arr.includes(text)] *)
Definition includes (arr : list jstring) (text : jstring) : bool :=
  existsb (JS.eqb text) arr.

Definition isHeading (line : list item) : bool :=
  let fontSizes := map height line in
  let maxFont := Math_max fontSizes in
  reaches (length (filter (fun h => SFeqb h maxFont) fontSizes)) (length line)
  && SFltb ten maxFont.

(** The body of the inner [lines.forEach]: [None] for each early
    [return], the pushed block otherwise. *)
Definition lineBlock (repeatedHeaders repeatedFooters : list jstring)
  (line : list item) : option block :=
  let text := lineText line in
  if negb (truthy text) then None
  else if includes repeatedHeaders text || includes repeatedFooters text then None
  else if isHeading line then Some (mkBlock heading_2 text)
  else Some (mkBlock paragraph text).

Definition optList (A : Type) (o : option A) : list A :=
  match o with Some a => [a] | None => [] end.

Definition firstLine (lines : list (list item)) : list jstring :=
  match lines with
  | [] => []
  | l :: _ => [lineText l]
  end.

Definition lastLine (lines : list (list item)) : list jstring :=
  match lines with
  | [] => []
  | l :: _ => [lineText (last lines l)]
  end.

(** The blocks pushed by the two nested loops, before the header and
    footer are added. *)
Definition bodyBlocks (hs fs : list jstring) (allPageBlocks : list (list (list item)))
  : list block :=
  flat_map (fun lines => flat_map (fun line => optList (lineBlock hs fs line)) lines)
    allPageBlocks.

Record parsed : Type := mkParsed {
  blocks : list block;
  pageCount : nat;
  repeatedHeaders : list jstring;
  repeatedFooters : list jstring
}.

Definition headerBlock (hs : list jstring) : list block :=
  match hs with
  | [] => []
  | h :: _ => [mkBlock paragraph h]
  end.

(** The arrays filled by the first loop over the pages. *)
Definition allPageBlocks (pages : list page) : list (list (list item)) :=
  map groupLines pages.

Definition firstLines (pages : list page) : list jstring :=
  flat_map firstLine (allPageBlocks pages).

Definition lastLines (pages : list page) : list jstring :=
  flat_map lastLine (allPageBlocks pages).

(** [parsePDF] after extraction: [pages] is [data.pages] with each page
    given by its [content].  The header goes in by [unshift], the footer
    by [push]. *)
Definition parsePDF (pages : list page) : parsed :=
  let hs := findRepeatedLines (length pages) (firstLines pages) in
  let fs := findRepeatedLines (length pages) (lastLines pages) in
  mkParsed
    (headerBlock hs ++ bodyBlocks hs fs (allPageBlocks pages) ++ headerBlock fs)
    (length pages) hs fs.

End StrategyB.

Import StrategyB.

(* ================================================================== *)
(** ** Publish adapter ([/api/notion/create]) *)
(* ================================================================== *)

Module Publish.

(** One rich-text run [{ type: 'text', text: { content } }]. *)
Record richText : Type := mkRichText { rt_type : jstring; rt_content : jstring }.

(** An API block [{ object, type, [container]: { rich_text } }];
    [nb_container] is the name of the property that holds the runs. *)
Record notionBlock : Type := mkNotionBlock {
  nb_object : jstring;
  nb_type : jstring;
  nb_container : jstring;
  nb_rich_text : list richText
}.

Definition container (kind text : jstring) : notionBlock :=
  mkNotionBlock (s2j "block") kind kind [mkRichText (s2j "text") text].

(** The callback of [blocks.map] in the current handler (both copies). *)
Definition toNotionBlock (b : block) : notionBlock :=
  if JS.eqb (btype b) (s2j "heading_2") then container (s2j "heading_2") (btext b)
  else if JS.eqb (btype b) (s2j "bulleted_list_item")
  then container (s2j "bulleted_list_item") (btext b)
  else container (s2j "paragraph") (btext b).

(** The same callback in the older handler that accompanies [parsePDF]
    with geometry: it has no bullet case. *)
Definition toNotionBlock_legacy (b : block) : notionBlock :=
  if JS.eqb (btype b) (s2j "heading_2") then container (s2j "heading_2") (btext b)
  else container (s2j "paragraph") (btext b).

(** [children: notionBlocks.slice(0, 100)] *)
Definition children (bs : list block) : list notionBlock :=
  firstn 100 (map toNotionBlock bs).

End Publish.

Import Publish.

(* ================================================================== *)
(** ** AI-response salvage ([/api/ai/structure]) *)
(* ================================================================== *)

Module Salvage.

(** JSON values as [JSON.parse] builds them.  A number keeps its lexeme;
    its conversions are those of the platform (see the section below).
    An object keeps its members in source order, a repeated key being
    read at its last occurrence. *)
Inductive json : Type :=
| JNull
| JBool (b : bool)
| JNumber (lexeme : jstring)
| JString (s : jstring)
| JArray (elements : list json)
| JObject (members : list (jstring * json)).

(** *** [JSON.parse]: the JSON grammar of ECMA-404 *)

Definition isJsonWs (c : char16) : bool :=
  ((c =? 32) || (c =? 9) || (c =? 10) || (c =? 13))%N.

Fixpoint skipWs (s : jstring) : jstring :=
  match s with
  | [] => []
  | c :: s' => if isJsonWs c then skipWs s' else s
  end.

Definition isDigit (c : char16) : bool := ((48 <=? c) && (c <=? 57))%N.

Definition hexVal (c : char16) : option N :=
  if isDigit c then Some (c - 48)%N
  else if ((65 <=? c) && (c <=? 70))%N then Some (c - 55)%N
  else if ((97 <=? c) && (c <=? 102))%N then Some (c - 87)%N
  else None.

Definition hex4 (a b c d : char16) : option char16 :=
  match hexVal a, hexVal b, hexVal c, hexVal d with
  | Some x, Some y, Some z, Some w => Some (((x * 16 + y) * 16 + z) * 16 + w)%N
  | _, _, _, _ => None
  end.

Definition simpleEscape (c : char16) : option char16 :=
  if (c =? 34)%N then Some 34%N          (* quote *)
  else if (c =? 92)%N then Some 92%N     (* backslash *)
  else if (c =? 47)%N then Some 47%N     (* slash *)
  else if (c =? 98)%N then Some 8%N      (* b: backspace *)
  else if (c =? 102)%N then Some 12%N    (* f: form feed *)
  else if (c =? 110)%N then Some 10%N    (* n: line feed *)
  else if (c =? 114)%N then Some 13%N    (* r: carriage return *)
  else if (c =? 116)%N then Some 9%N     (* t: tab *)
  else None.

(** The characters of a string literal after its opening quote. *)
Fixpoint parseChars (acc : jstring) (s : jstring) : option (jstring * jstring) :=
  match s with
  | [] => None
  | c :: s' =>
      if (c =? 34)%N then Some (rev acc, s')
      else if (c =? 92)%N then
        match s' with
        | [] => None
        | e :: s'' =>
            if (e =? 117)%N then
              match s'' with
              | h1 :: h2 :: h3 :: h4 :: s5 =>
                  match hex4 h1 h2 h3 h4 with
                  | Some u => parseChars (u :: acc) s5
                  | None => None
                  end
              | _ => None
              end
            else
              match simpleEscape e with
              | Some u => parseChars (u :: acc) s''
              | None => None
              end
        end
      else if (c <? 32)%N then None
      else parseChars (c :: acc) s'
  end.

Fixpoint takeDigits (s : jstring) : jstring * jstring :=
  match s with
  | [] => ([], [])
  | c :: s' =>
      if isDigit c then let (ds, r) := takeDigits s' in (c :: ds, r)
      else ([], s)
  end.

(** A number lexeme: an optional minus, an integer part without leading
    zero, an optional fraction, an optional exponent. *)
Definition parseNumber (s : jstring) : option (jstring * jstring) :=
  let (sign, s1) :=
    match s with
    | c :: r => if (c =? 45)%N then ([c], r) else ([], s)
    | [] => ([], s)
    end in
  let intPart :=
    match s1 with
    | c :: r =>
        if (c =? 48)%N then Some ([c], r)
        else if isDigit c then Some (takeDigits s1)
        else None
    | [] => None
    end in
  match intPart with
  | None => None
  | Some (ds, s2) =>
      let fracPart :=
        match s2 with
        | c :: r =>
            if (c =? 46)%N then
              match takeDigits r with
              | ([], _) => None
              | (fs, r') => Some (c :: fs, r')
              end
            else Some ([], s2)
        | [] => Some ([], s2)
        end in
      match fracPart with
      | None => None
      | Some (fr, s3) =>
          let expPart :=
            match s3 with
            | c :: r =>
                if ((c =? 101) || (c =? 69))%N then
                  let (sg, r1) :=
                    match r with
                    | d :: r' => if ((d =? 43) || (d =? 45))%N then ([d], r') else ([], r)
                    | [] => ([], r)
                    end in
                  match takeDigits r1 with
                  | ([], _) => None
                  | (es, r2) => Some (c :: sg ++ es, r2)
                  end
                else Some ([], s3)
            | [] => Some ([], s3)
            end in
          match expPart with
          | None => None
          | Some (ex, s4) => Some (sign ++ ds ++ fr ++ ex, s4)
          end
      end
  end.

Definition literal (word : jstring) (v : json) (s : jstring)
  : option (json * jstring) :=
  if isPrefix word s then Some (v, skipn (length word) s) else None.

(** Recursive descent; every call on a smaller fuel follows at least one
    consumed code unit, except the step from a bracket to its first
    element, so twice the input length is enough fuel. *)
Fixpoint parseValue (fuel : nat) (s : jstring) {struct fuel}
  : option (json * jstring) :=
  match fuel with
  | O => None
  | S f =>
      match skipWs s with
      | [] => None
      | c :: r =>
          if (c =? 91)%N then
            match skipWs r with
            | d :: r' =>
                if (d =? 93)%N then Some (JArray [], r')
                else match parseElements f r with
                     | Some (vs, r'') => Some (JArray vs, r'')
                     | None => None
                     end
            | [] => None
            end
          else if (c =? 123)%N then
            match skipWs r with
            | d :: r' =>
                if (d =? 125)%N then Some (JObject [], r')
                else match parseMembers f r with
                     | Some (ms, r'') => Some (JObject ms, r'')
                     | None => None
                     end
            | [] => None
            end
          else if (c =? 34)%N then
            match parseChars [] r with
            | Some (str, r') => Some (JString str, r')
            | None => None
            end
          else if (c =? 116)%N then literal (s2j "true") (JBool true) (c :: r)
          else if (c =? 102)%N then literal (s2j "false") (JBool false) (c :: r)
          else if (c =? 110)%N then literal (s2j "null") JNull (c :: r)
          else
            match parseNumber (c :: r) with
            | Some (lx, r') => Some (JNumber lx, r')
            | None => None
            end
      end
  end

with parseElements (fuel : nat) (s : jstring) {struct fuel}
  : option (list json * jstring) :=
  match fuel with
  | O => None
  | S f =>
      match parseValue f s with
      | None => None
      | Some (v, r) =>
          match skipWs r with
          | c :: r' =>
              if (c =? 44)%N then
                match parseElements f r' with
                | Some (vs, r'') => Some (v :: vs, r'')
                | None => None
                end
              else if (c =? 93)%N then Some ([v], r')
              else None
          | [] => None
          end
      end
  end

with parseMembers (fuel : nat) (s : jstring) {struct fuel}
  : option (list (jstring * json) * jstring) :=
  match fuel with
  | O => None
  | S f =>
      match skipWs s with
      | q :: r0 =>
          if (q =? 34)%N then
            match parseChars [] r0 with
            | None => None
            | Some (k, r1) =>
                match skipWs r1 with
                | col :: r2 =>
                    if (col =? 58)%N then
                      match parseValue f r2 with
                      | None => None
                      | Some (v, r3) =>
                          match skipWs r3 with
                          | c :: r4 =>
                              if (c =? 44)%N then
                                match parseMembers f r4 with
                                | Some (ms, r5) => Some ((k, v) :: ms, r5)
                                | None => None
                                end
                              else if (c =? 125)%N then Some ([(k, v)], r4)
                              else None
                          | [] => None
                          end
                      end
                    else None
                | [] => None
                end
            end
          else None
      | [] => None
      end
  end.

(** [JSON.parse(text)]; [None] stands for the [SyntaxError] it throws. *)
Definition JSON_parse (text : jstring) : option json :=
  match parseValue (2 * length text + 2) text with
  | Some (v, r) => match skipWs r with [] => Some v | _ :: _ => None end
  | None => None
  end.

(** *** Property reads of the handler *)

(** The property names the handler reads. *)
Inductive key : Type :=
| K_paragraph | K_heading_1 | K_rich_text | K_text | K_content | K_0.

Definition keyName (k : key) : jstring :=
  match k with
  | K_paragraph => s2j "paragraph"
  | K_heading_1 => s2j "heading_1"
  | K_rich_text => s2j "rich_text"
  | K_text => s2j "text"
  | K_content => s2j "content"
  | K_0 => s2j "0"
  end.

(** A completed evaluation or a thrown [TypeError]. *)
Inductive res (A : Type) : Type :=
| Ok (a : A)
| Throw.

Arguments Throw {A}.

Definition bind (A B : Type) (r : res A) (f : A -> res B) : res B :=
  match r with
  | Ok a => f a
  | Throw => Throw
  end.

Notation "x <- r ;; k" := (bind r (fun x => k))
  (at level 61, r at next level, right associativity).

Definition lookupLast (k : jstring) (ms : list (jstring * json)) : option json :=
  fold_left (fun acc kv => if JS.eqb (fst kv) k then Some (snd kv) else acc) ms None.

(** [v[k]] for a parsed value [v]; [None] is [undefined].  None of the
    names in [key] is inherited by objects, arrays, strings, numbers or
    booleans, so only own properties and elements answer. *)
Definition get (v : json) (k : key) : res (option json) :=
  match v with
  | JNull => Throw
  | JObject ms => Ok (lookupLast (keyName k) ms)
  | JArray l => Ok (match k with K_0 => nth_error l 0 | _ => None end)
  | JString s =>
      Ok (match k, s with
          | K_0, c :: _ => Some (JString [c])
          | _, _ => None
          end)
  | JBool _ | JNumber _ => Ok None
  end.

Definition getV (v : option json) (k : key) : res (option json) :=
  match v with
  | Some j => get j k
  | None => Throw
  end.

Section Platform.

(** [ToBoolean] and [ToString] of the number a lexeme denotes. *)
Variable numToBoolean : jstring -> bool.
Variable numToString : jstring -> jstring.

Definition truthyJ (v : json) : bool :=
  match v with
  | JNull => false
  | JBool b => b
  | JNumber lx => numToBoolean lx
  | JString s => truthy s
  | JArray _ | JObject _ => true
  end.

Definition truthyV (v : option json) : bool :=
  match v with
  | Some j => truthyJ j
  | None => false
  end.

(** Does the object have an own member of that name? *)
Definition hasOwn (name : jstring) (ms : list (jstring * json)) : bool :=
  existsb (fun kv => JS.eqb (fst kv) name) ms.

(** [ToString], as [join] applies it to the elements of an array.  An
    array joins its elements with commas, [null] counting as empty.  An
    object answers through the inherited [toString]; an own member of
    that name is never callable in parsed JSON, nothing else yields a
    primitive, and the conversion throws a [TypeError]. *)
Fixpoint toString (v : json) : res jstring :=
  match v with
  | JNull => Ok (s2j "null")
  | JBool true => Ok (s2j "true")
  | JBool false => Ok (s2j "false")
  | JNumber lx => Ok (numToString lx)
  | JString s => Ok s
  | JArray l =>
      parts <-
        (fix elements (l : list json) : res (list jstring) :=
           match l with
           | [] => Ok []
           | e :: l' =>
               p <- match e with JNull => Ok [] | _ => toString e end ;;
               ps <- elements l' ;;
               Ok (p :: ps)
           end) l ;;
      Ok (join (s2j ",") parts)
  | JObject ms =>
      if hasOwn (s2j "toString") ms then Throw else Ok (s2j "[object Object]")
  end.

(** [block[k] && block[k].rich_text && block[k].rich_text[0] &&
    block[k].rich_text[0].text]: the last operand when every operand is
    truthy. *)
Definition richTextText (block : json) (k : key) : res (option json) :=
  a <- get block k ;;
  if truthyV a then
    b <- getV a K_rich_text ;;
    if truthyV b then
      c <- getV b K_0 ;;
      if truthyV c then
        t <- getV c K_text ;;
        if truthyV t then Ok t else Ok None
      else Ok None
    else Ok None
  else Ok None.

(** The callback of [parsed.map]. *)
Definition extractText (block : json) : res (option json) :=
  p <- richTextText block K_paragraph ;;
  match p with
  | Some t => get t K_content
  | None =>
      h <- richTextText block K_heading_1 ;;
      match h with
      | Some t => get t K_content
      | None =>
          tx <- get block K_text ;;
          if truthyV tx then Ok tx else Ok (Some (JString []))
      end
  end.

Fixpoint mapRes (A B : Type) (f : A -> res B) (l : list A) : res (list B) :=
  match l with
  | [] => Ok []
  | a :: l' => b <- f a ;; bs <- mapRes f l' ;; Ok (b :: bs)
  end.

(** An element as [join] prints it: [undefined] and [null] as the empty
    string, anything else by [ToString]. *)
Definition stringOfV (v : option json) : res jstring :=
  match v with
  | None | Some JNull => Ok []
  | Some j => toString j
  end.

(** Fence removal: only when the trimmed response starts with three
    backticks, drop every line that does. *)
Definition fence : jstring := [BACKTICK; BACKTICK; BACKTICK].

Definition stripFences (responseContent : jstring) : jstring :=
  if startsWith (trim responseContent) fence
  then join [LF]
         (filter (fun line => negb (startsWith (trim line) fence))
            (split responseContent [LF]))
  else responseContent.

(** The post-processing of the handler: [plainText] as sent back.  An
    exception of the mapping or of the final [join] is caught and the
    raw response kept. *)
Definition salvage (responseContent : jstring) : jstring :=
  match JSON_parse (stripFences responseContent) with
  | None => responseContent
  | Some (JArray elements) =>
      match mapRes extractText elements with
      | Throw => responseContent
      | Ok vs =>
          match mapRes stringOfV (filter truthyV vs) with
          | Throw => responseContent
          | Ok texts => join [LF; LF] texts
          end
      end
  | Some _ => responseContent
  end.

End Platform.

End Salvage.

Import Salvage.

(* ================================================================== *)
(** ** Text helpers of the server ([cleanText], [isBulletLine]) *)
(* ================================================================== *)

Module Clean.

(** [-] *)
Definition isPrivateUse (c : char16) : bool :=
  ((57344 <=? c) && (c <=? 63743))%N.

(** The class of bullet-like symbols: U+2022, U+25CF, U+25E6, U+2023,
    U+25AA, U+2013, U+2014. *)
Definition isBulletSymbol (c : char16) : bool :=
  ((c =? 8226) || (c =? 9679) || (c =? 9702) || (c =? 8227)
   || (c =? 9642) || (c =? 8211) || (c =? 8212))%N.

(** The geometric shapes, U+25A0 to U+25FF. *)
Definition isGeometric (c : char16) : bool :=
  ((9632 <=? c) && (c <=? 9727))%N.

Definition removePrivateUse (s : jstring) : jstring :=
  filter (fun c => negb (isPrivateUse c)) s.

Definition normalizeBullets (s : jstring) : jstring :=
  map (fun c => if isBulletSymbol c then BULLET else c) s.

Definition replaceGeometric (s : jstring) : jstring :=
  map (fun c => if isGeometric c then BULLET else c) s.

(** [s.replace(/ {2,}/g, ' ')]: every maximal run of two or more spaces
    becomes one space, so a space is dropped exactly when another one
    follows it. *)
Fixpoint collapseSpaces (s : jstring) : jstring :=
  match s with
  | [] => []
  | c :: s' =>
      match s' with
      | d :: _ =>
          if ((c =? SPACE) && (d =? SPACE))%N then collapseSpaces s'
          else c :: collapseSpaces s'
      | [] => [c]
      end
  end.

Definition cleanText (text : jstring) : jstring :=
  trim (collapseSpaces (replaceGeometric (normalizeBullets (removePrivateUse text)))).

(** The anchored test of [isBulletLine] on the first code unit. *)
Definition isBulletLine (text : jstring) : bool :=
  match text with
  | [] => false
  | c :: _ => ((c =? BULLET) || (c =? HYPHEN))%N || isGeometric c || isPrivateUse c
  end.

End Clean.

(* ================================================================== *)
(** ** Flat text extraction (the [parsePDF] of the later servers) *)
(* ================================================================== *)

Module Flat.

(** [page.content.map(item => item.str).join(' ')] *)
Definition pageText (p : page) : jstring := join [SPACE] (map str p).

Record extracted : Type := mkExtracted {
  text : jstring;
  pageCount : nat;
  title : option jstring
}.

(** [parsePDF] after extraction.  [infoTitle] is [data.info.Title] when
    the document information has one; [None] in the result is [null]. *)
Definition parsePDF (infoTitle : option jstring) (pages : list page) : extracted :=
  mkExtracted
    (join NN (map pageText pages))
    (length pages)
    (match infoTitle with
     | Some t => if truthy t then Some t else None
     | None => None
     end).

End Flat.

(* ================================================================== *)
(** ** The [/api/notion/create] handler on a JSON body *)
(* ================================================================== *)

Module Create.

(** The properties the handler reads from the body and from a block;
    no prototype defines any of them. *)
Inductive field : Type := F_title | F_blocks | F_type | F_text.

Definition fieldName (f : field) : jstring :=
  match f with
  | F_title => s2j "title"
  | F_blocks => s2j "blocks"
  | F_type => s2j "type"
  | F_text => s2j "text"
  end.

(** [v.f]: a [TypeError] on [null], [undefined] on anything that is not
    an object with that member. *)
Definition read (v : json) (f : field) : res (option json) :=
  match v with
  | JNull => Throw
  | JObject ms => Ok (lookupLast (fieldName f) ms)
  | _ => Ok None
  end.

(** A block as sent to the API:
    [{ object: 'block', type: kind, [kind]: { rich_text:
       [{ type: 'text', text: { content } }] } }]. *)
Record apiBlock : Type := mkApiBlock { ab_kind : jstring; ab_content : option json }.

(** The three-way test on [block.type]. *)
Definition kindOf (t : option json) : jstring :=
  match t with
  | Some (JString s) =>
      if JS.eqb s (s2j "heading_2") then s2j "heading_2"
      else if JS.eqb s (s2j "bulleted_list_item") then s2j "bulleted_list_item"
      else s2j "paragraph"
  | _ => s2j "paragraph"
  end.

(** The callback of [blocks.map] on an arbitrary element. *)
Definition toApiBlock (block : json) : res apiBlock :=
  t <- read block F_type ;;
  tx <- read block F_text ;;
  Ok (mkApiBlock (kindOf t) tx).

(** What the handler does with a request, up to the call of the API. *)
Inductive outcome : Type :=
| BadRequest
| ServerError
| CreatePage (title : json) (children : list apiBlock).

Section Platform.

Variable numToBoolean : jstring -> bool.

(** The handler for a request whose JSON body is [body]: the 400 guard,
    the mapping of every block, then the truncation to 100 children.  An
    exception of the mapping is caught and answered with 500. *)
Definition createPage (body : json) : outcome :=
  match read body F_title, read body F_blocks with
  | Ok title, Ok blocks =>
      if negb (truthyV numToBoolean title) || negb (truthyV numToBoolean blocks)
      then BadRequest
      else
        match title, blocks with
        | Some t, Some (JArray l) =>
            match mapRes toApiBlock l with
            | Ok cs => CreatePage t (firstn 100 cs)
            | Throw => ServerError
            end
        | _, _ => BadRequest
        end
  | _, _ => ServerError
  end.

End Platform.

End Create.

(* ================================================================== *)
(** ** The request of the front end ([handleSendToNotion]) *)
(* ================================================================== *)

Module FrontEnd.

(** A block [{ type, text }] as it arrives after [JSON.stringify] and
    the body parser. *)
Definition blockJson (b : block) : json :=
  JObject [(s2j "type", JString (btype b)); (s2j "text", JString (btext b))].

(** [parsedContent.metadata.title || file?.name || 'PDF to Notion Page'] *)
Definition chooseTitle (metaTitle fileName : option jstring) : jstring :=
  match metaTitle with
  | Some (c :: t) => c :: t
  | _ =>
      match fileName with
      | Some (c :: n) => c :: n
      | _ => s2j "PDF to Notion Page"
      end
  end.

(** The body posted to [/api/notion/create]. *)
Definition requestBody (metaTitle fileName : option jstring)
  (processedBlocks : list block) : json :=
  JObject
    [ (s2j "title", JString (chooseTitle metaTitle fileName));
      (s2j "blocks", JArray (map blockJson (firstn 100 processedBlocks))) ].

End FrontEnd.

(* ================================================================== *)
(** ** Vocabulary of the statements and sample inputs *)
(* ================================================================== *)

Definition QUOTE : char16 := 34%N.

Definition startsWithWs (s : jstring) : bool :=
  match s with
  | [] => false
  | c :: _ => isWhiteSpace c
  end.

Definition endsWithWs (s : jstring) : bool := startsWithWs (rev s).

(** No leading and no trailing white space. *)
Definition trimmed (s : jstring) : Prop :=
  startsWithWs s = false /\ endsWithWs s = false.

Definition startsWithMarker (s : jstring) : bool :=
  startsWith s [BULLET] || startsWith s [HYPHEN].

Definition notBullet (b : block) : bool :=
  negb (JS.eqb (btype b) bulleted_list_item).

(** Joining the texts of the blocks with blank lines and running
    Strategy A again. *)
Definition rerun (text : jstring) : list block :=
  textToNotionBlocks (join NN (map btext (textToNotionBlocks text))).

(** How often [k] occurs in a list of strings. *)
Definition occurrences (k : jstring) (l : list jstring) : nat :=
  length (filter (JS.eqb k) l).

(** All lines of a document, page after page. *)
Definition allLines (pages : list page) : list (list item) :=
  concat (allPageBlocks pages).

(** The blocks [parsePDF] emits for the lines, without header and
    footer. *)
Definition body (pages : list page) : list block :=
  bodyBlocks (repeatedHeaders (parsePDF pages)) (repeatedFooters (parsePDF pages))
    (allPageBlocks pages).

(** Number of fragments of a line whose height equals the maximum. *)
Definition atMax (line : list item) : nat :=
  length (filter (fun i => SFeqb (height i) (Math_max (map height line))) line).

Definition frag (s : string) (yy hh : Z) : item :=
  mkItem (s2j s) (ofZ yy) (ofZ hh).

(** One page, three lines: ["Title"], a blank fragment, ["End"]. *)
Definition blankLinePage : list page :=
  [[frag "Title" 0 12; frag " " 10 12; frag "End" 20 12]].

(** Two one-line pages, ["A"] and ["B"]. *)
Definition twoPages : list page := [[frag "A" 0 12]; [frag "B" 0 12]].

(** One page, three lines, the middle one small body text. *)
Definition bodyPage : list page :=
  [[frag "Title" 0 12; frag "Some body text" 10 9; frag "End" 20 12]].

(** One page whose only line reads ["constructor"]. *)
Definition constructorPage : list page := [[frag "constructor" 0 12]].

(** What [counts] holds for a name that is not inherited. *)
Definition counted (ls : list jstring) (o : props) : Prop :=
  forall k, k <> [] -> inherited k = false ->
  getOwn o k = match occurrences k ls with
               | 0 => None
               | S m => Some (Num (S m))
               end.

(** Zero, a positive finite number or [+Infinity]. *)
Definition nonNegative (x : num) : Prop :=
  match x with
  | S754_nan => False
  | S754_zero s | S754_infinity s | S754_finite s _ _ => s = false
  end.

(** [Math.floor(n * 0.7)] is the integer part of 7n/10, or one less
    when 10 divides [n] and the rounded product falls short of it. *)
Definition nearFloor (n : nat) : bool :=
  let q := (7 * Z.of_nat n / 10)%Z in
  SFeqb (threshold n) (ofZ q)
  || ((n mod 10 =? 0) && SFeqb (threshold n) (ofZ (q - 1))).

(** The heading test gives the same answer before and after trimming. *)
Definition stableHeadingTest (p : jstring) : bool :=
  Bool.eqb (looksLikeHeading p) (looksLikeHeading (trim p)).

(** What Strategy A makes of the text of a paragraph [p] in its block
    [b]: the trimmed paragraph, except that a BulletItem loses one
    leading marker [m] and the white space [ws] that follows it. *)
Definition textOfParagraph (p : jstring) (b : block) : Prop :=
  trimmed (btext b)
  /\ (btype b <> bulleted_list_item -> btext b = trim p /\ btext b <> [])
  /\ (btype b = bulleted_list_item ->
      exists m ws,
        (m = BULLET \/ m = HYPHEN) /\ forallb isWhiteSpace ws = true
        /\ trim p = m :: ws ++ btext b).

Definition producedByA (b : block) : Prop :=
  exists text, In b (textToNotionBlocks text).

Definition producedByB (b : block) : Prop :=
  exists pages, In b (blocks (parsePDF pages)).

(** ["Title"] followed by 95 spaces: 100 code units. *)
Definition paddedTitle : jstring := s2j "Title" ++ repeat SPACE 95.

(** ["- a."] and ["--a."] *)
Definition bulletSentence : jstring := s2j "- a.".
Definition doubleDash : jstring := s2j "--a.".

(** ["- item one\n\n- item two"] *)
Definition twoItems : jstring := s2j "- item one" ++ [LF; LF] ++ s2j "- item two".

(** The fenced one-object array of the salvage scenario. *)
Definition fencedHello : jstring :=
  s2j "```json" ++ [LF]
    ++ s2j "[{" ++ [QUOTE] ++ s2j "text" ++ [QUOTE] ++ s2j ":"
    ++ [QUOTE] ++ s2j "Hello" ++ [QUOTE] ++ s2j "}]" ++ [LF]
    ++ s2j "```".

(** *** Vocabulary of the further properties *)

(** The break test of the line grouping between a fragment and the next. *)
Definition far (a b : item) : bool := SFltb two (SFabs (sub (y b) (y a))).

(** Every fragment of a line is within the tolerance of the one before. *)
Fixpoint chained (l : list item) : bool :=
  match l with
  | a :: l' =>
      match l' with
      | b :: _ => negb (far a b) && chained l'
      | [] => true
      end
  | [] => true
  end.

Definition lastOpt (l : list item) : option item :=
  match rev l with
  | a :: _ => Some a
  | [] => None
  end.

(** The break test between the end of a line and the start of the next. *)
Definition boundary (l1 l2 : list item) : bool :=
  match lastOpt l1, l2 with
  | Some a, b :: _ => far a b
  | _, _ => false
  end.

(** Each line starts beyond the tolerance of the end of the line before. *)
Fixpoint separated (ls : list (list item)) : bool :=
  match ls with
  | l1 :: ls' =>
      match ls' with
      | l2 :: _ => boundary l1 l2 && separated ls'
      | [] => true
      end
  | [] => true
  end.

(** The state of the loop: [lastY] is the position of the last fragment
    of [currentLine], the finished lines are chained and separated. *)
Definition grouping (lines : list (list item)) (cur : list item)
  (lastY : option num) : Prop :=
  match lastOpt cur with
  | Some a => lastY = Some (y a)
  | None => lastY = None /\ lines = []
  end
  /\ forallb chained lines = true /\ chained cur = true
  /\ separated (pushLine lines cur) = true.

(** The own properties of [counts] after the samples [ls]: one entry
    per key, a number of occurrences for a name that is not inherited,
    a string for one that is. *)
Definition tallied (ls : list jstring) (o : props) : Prop :=
  NoDup (map fst o)
  /\ forall k v, In (k, v) o ->
     k <> [] /\ In k ls
     /\ (if inherited k then v = NaS else v = Num (occurrences k ls)).

(** The test a line text passes to enter the body. *)
Definition kept (hs fs : list jstring) (t : jstring) : bool :=
  truthy t && negb (includes hs t) && negb (includes fs t).

Definition hasNewline (s : jstring) : bool := existsb (N.eqb LF) s.

(** No fragment of the document holds a line feed. *)
Definition noNewlines (pages : list page) : bool :=
  forallb (forallb (fun i => negb (hasNewline (str i)))) pages.

(** A request body [{ title, blocks }] with typed blocks. *)
Definition typedBody (t : jstring) (bs : list block) : json :=
  JObject [ (s2j "title", JString t);
            (s2j "blocks", JArray (map FrontEnd.blockJson bs)) ].

(** A string literal of JSON text without escapes. *)
Definition quoted (s : string) : jstring := [QUOTE] ++ s2j s ++ [QUOTE].

(** A line of the response that opens or closes a fence. *)
Definition fenceLine (line : jstring) : bool := startsWith (trim line) fence.

(** [[{"type":"paragraph","text":"Hello"}]] *)
Definition typedHello : jstring :=
  s2j "[{" ++ quoted "type" ++ s2j ":" ++ quoted "paragraph" ++ s2j ","
    ++ quoted "text" ++ s2j ":" ++ quoted "Hello" ++ s2j "}]".

(** One paragraph and one heading in the shape the API takes. *)
Definition apiHello : jstring :=
  s2j "[{" ++ quoted "object" ++ s2j ":" ++ quoted "block" ++ s2j ","
    ++ quoted "type" ++ s2j ":" ++ quoted "paragraph" ++ s2j ","
    ++ quoted "paragraph" ++ s2j ":{" ++ quoted "rich_text" ++ s2j ":[{"
    ++ quoted "type" ++ s2j ":" ++ quoted "text" ++ s2j ","
    ++ quoted "text" ++ s2j ":{" ++ quoted "content" ++ s2j ":" ++ quoted "Hello"
    ++ s2j "}}]}},{" ++ quoted "object" ++ s2j ":" ++ quoted "block" ++ s2j ","
    ++ quoted "type" ++ s2j ":" ++ quoted "heading_2" ++ s2j ","
    ++ quoted "heading_2" ++ s2j ":{" ++ quoted "rich_text" ++ s2j ":[{"
    ++ quoted "type" ++ s2j ":" ++ quoted "text" ++ s2j ","
    ++ quoted "text" ++ s2j ":{" ++ quoted "content" ++ s2j ":" ++ quoted "Title"
    ++ s2j "}}]}}]".

(** Two spaces in a row. *)
Definition SS : jstring := [SPACE; SPACE].

(** A code unit [cleanText] leaves alone. *)
Definition cleanUnit (c : char16) : bool :=
  negb (Clean.isPrivateUse c) && negb (Clean.isGeometric c)
  && (negb (Clean.isBulletSymbol c) || (c =? BULLET)%N).

(** A block the salvage step can read back from its API shape. *)
Definition plainBlock (b : block) : bool :=
  negb (JS.eqb (btype b) heading_2) && negb (JS.eqb (btype b) bulleted_list_item).

(** The API object the publish adapter builds, as a JSON value. *)
Definition notionBlockJson (nb : notionBlock) : json :=
  JObject
    [ (s2j "object", JString (nb_object nb));
      (s2j "type", JString (nb_type nb));
      (nb_container nb,
       JObject
         [ (s2j "rich_text",
            JArray
              (map (fun r =>
                      JObject
                        [ (s2j "type", JString (rt_type r));
                          (s2j "text", JObject [(s2j "content", JString (rt_content r))]) ])
                 (nb_rich_text nb))) ]) ].

(** An adapter block as the JSON-level handler builds it. *)
Definition liftBlock (nb : notionBlock) : Create.apiBlock :=
  Create.mkApiBlock (nb_type nb)
    (match nb_rich_text nb with
     | r :: _ => Some (JString (rt_content r))
     | [] => None
     end).

(* ================================================================== *)
(** ** Facts about strings *)
(* ================================================================== *)

Unset Implicit Arguments.

Lemma eqb_eq (a b : jstring) : JS.eqb a b = true <-> a = b.
Proof.
  unfold JS.eqb. destruct (list_eq_dec N.eq_dec a b); split; congruence.
Qed.

Lemma eqb_neq (a b : jstring) : JS.eqb a b = false <-> a <> b.
Proof.
  unfold JS.eqb. destruct (list_eq_dec N.eq_dec a b); split; congruence.
Qed.

Lemma eqb_refl (a : jstring) : JS.eqb a a = true.
Proof. now apply eqb_eq. Qed.

Lemma isPrefix_spec (p s : jstring) :
  isPrefix p s = true <-> exists b, s = p ++ b.
Proof.
  revert s. induction p as [|a p IH]; intros s; simpl.
  - split; [intros _; now exists s | reflexivity].
  - destruct s as [|c s].
    + split; [discriminate | intros [b Hb]; discriminate].
    + rewrite andb_true_iff, N.eqb_eq, IH. split.
      * intros [-> [b ->]]. now exists b.
      * intros [b Hb]. injection Hb as -> ->. split; [reflexivity | now exists b].
Qed.

Lemma occurs_spec (sep s : jstring) :
  occurs sep s = true <-> exists a b, s = a ++ sep ++ b.
Proof.
  induction s as [|c s IH].
  - simpl. rewrite orb_false_r, isPrefix_spec. split.
    + intros [b Hb]. now exists [], b.
    + intros [a [b Hb]]. destruct a; [now exists b | discriminate].
  - cbn [occurs]. rewrite orb_true_iff, isPrefix_spec, IH. split.
    + intros [[b Hb] | [a [b Hb]]].
      * now exists [], b.
      * exists (c :: a), b. now rewrite Hb.
    + intros [a [b Hb]]. destruct a as [|c' a].
      * left. now exists b.
      * right. injection Hb as _ Hb. now exists a, b.
Qed.

Lemma trimStart_suffix (s : jstring) :
  exists w, s = w ++ trimStart s /\ forallb isWhiteSpace w = true.
Proof.
  induction s as [|c s [w [Hw Hall]]]; simpl.
  - now exists [].
  - destruct (isWhiteSpace c) eqn:E.
    + exists (c :: w). simpl. rewrite E, Hall. split; [now f_equal | reflexivity].
    + now exists [].
Qed.

Lemma trimStart_noLead (s : jstring) : startsWithWs (trimStart s) = false.
Proof.
  induction s as [|c s IH]; simpl; [reflexivity|].
  destruct (isWhiteSpace c) eqn:E; [exact IH | simpl; exact E].
Qed.

Lemma trimStart_fix (s : jstring) : startsWithWs s = false -> trimStart s = s.
Proof. destruct s as [|c s]; simpl; [reflexivity | now intros ->]. Qed.

Lemma trimEnd_prefix (s : jstring) :
  exists w, s = trimEnd s ++ w /\ forallb isWhiteSpace w = true.
Proof.
  unfold trimEnd. destruct (trimStart_suffix (rev s)) as [w [Hw Hall]].
  exists (rev w). split.
  - rewrite <- (rev_involutive s), Hw at 1. now rewrite rev_app_distr.
  - rewrite forallb_forall in *. intros x Hx. apply Hall. now apply in_rev.
Qed.

Lemma trimEnd_noTrail (s : jstring) : endsWithWs (trimEnd s) = false.
Proof.
  unfold endsWithWs, trimEnd. rewrite rev_involutive. apply trimStart_noLead.
Qed.

Lemma trimEnd_fix (s : jstring) : endsWithWs s = false -> trimEnd s = s.
Proof.
  unfold endsWithWs, trimEnd. intros H.
  rewrite (trimStart_fix _ H). apply rev_involutive.
Qed.

Lemma trimEnd_noLead (s : jstring) :
  startsWithWs s = false -> startsWithWs (trimEnd s) = false.
Proof.
  intros H. destruct (trimEnd_prefix s) as [w [Hw _]].
  destruct (trimEnd s) as [|c t]; [reflexivity|].
  rewrite Hw in H. exact H.
Qed.

Lemma trim_trimmed (s : jstring) : trimmed (trim s).
Proof.
  split; unfold trim.
  - apply trimEnd_noLead, trimStart_noLead.
  - apply trimEnd_noTrail.
Qed.

Lemma trimmed_trim (s : jstring) : trimmed s -> trim s = s.
Proof.
  intros [H1 H2]. unfold trim. rewrite (trimStart_fix _ H1). now apply trimEnd_fix.
Qed.

Lemma trim_idem (s : jstring) : trim (trim s) = trim s.
Proof. apply trimmed_trim, trim_trimmed. Qed.

(** Without an occurrence of the separator, [split] returns the string
    as its only piece. *)
Lemma split_go_none (sep s : jstring) :
  occurs sep s = false -> split_go sep 0 s = [s].
Proof.
  induction s as [|c s IH]; intros H; [reflexivity|].
  cbn [occurs] in H. apply orb_false_iff in H as [H1 H2].
  cbn [split_go]. rewrite H1, (IH H2). reflexivity.
Qed.

Lemma endsWithWs_suffix (w t : jstring) :
  endsWithWs (w ++ t) = false -> endsWithWs t = false.
Proof.
  unfold endsWithWs. rewrite rev_app_distr.
  destruct (rev t) as [|c r]; [reflexivity | intros H; exact H].
Qed.

Lemma endsWithWs_cons (c : char16) (s : jstring) :
  endsWithWs (c :: s) = false ->
  (s = [] /\ isWhiteSpace c = false) \/ (s <> [] /\ endsWithWs s = false).
Proof.
  destruct s as [|d s]; intros H.
  - left. split; [reflexivity | exact H].
  - right. split; [discriminate|].
    now apply (endsWithWs_suffix [c] (d :: s)).
Qed.

(** *** [split] on the blank-line separator *)

Lemma isPrefix_NN (c : char16) (s : jstring) :
  isPrefix NN (c :: s)
  = (LF =? c)%N && match s with [] => false | d :: _ => (LF =? d)%N end.
Proof.
  unfold NN. cbn [isPrefix]. destruct s as [|d s]; [reflexivity|].
  now rewrite andb_true_r.
Qed.

Lemma isWhiteSpace_LF : isWhiteSpace LF = true.
Proof. reflexivity. Qed.

Lemma split_NN_app (p rest : jstring) :
  occurs NN p = false -> endsWithWs p = false ->
  split_go NN 0 (p ++ NN ++ rest) = p :: split_go NN 0 rest.
Proof.
  induction p as [|c p IH]; intros Hocc Hend.
  - reflexivity.
  - cbn [occurs] in Hocc. apply orb_false_iff in Hocc as [Hpre Hocc].
    assert (Hnp : isPrefix NN (c :: p ++ NN ++ rest) = false).
    { rewrite isPrefix_NN in Hpre |- *. destruct p as [|d p].
      - destruct (endsWithWs_cons _ _ Hend) as [[_ Hc] | [Hne _]]; [|congruence].
        destruct (N.eqb_spec LF c) as [<-|]; [|reflexivity].
        rewrite isWhiteSpace_LF in Hc. discriminate Hc.
      - exact Hpre. }
    rewrite <- app_comm_cons. cbn [split_go]. rewrite Hnp.
    destruct (endsWithWs_cons _ _ Hend) as [[-> _] | [_ Hend']].
    + reflexivity.
    + now rewrite (IH Hocc Hend').
Qed.

Lemma split_join_NN (ps : list jstring) :
  ps <> [] ->
  Forall (fun p => occurs NN p = false /\ endsWithWs p = false) ps ->
  split (join NN ps) NN = ps.
Proof.
  unfold split. induction ps as [|p ps IH]; intros Hne Hall; [congruence|].
  inversion Hall as [|? ? [Hocc Hend] Hall']; subst.
  destruct ps as [|q ps].
  - simpl. now apply split_go_none.
  - change (join NN (p :: q :: ps)) with (p ++ NN ++ join NN (q :: ps)).
    rewrite (split_NN_app _ _ Hocc Hend). f_equal. apply IH; [discriminate | exact Hall'].
Qed.

Lemma split_go_head_prefix (sep s : jstring) :
  exists p ps r, split_go sep 0 s = p :: ps /\ s = p ++ r.
Proof.
  induction s as [|c s (p & ps & r & Hs & Hr)].
  - now exists [], [], [].
  - cbn [split_go]. destruct (isPrefix sep (c :: s)).
    + now exists [], (split_go sep (length sep - 1) s), (c :: s).
    + rewrite Hs. exists (c :: p), ps, r. simpl. split; [reflexivity | now f_equal].
Qed.

Lemma split_NN_pieces (s : jstring) (skip : nat) :
  Forall (fun p => occurs NN p = false) (split_go NN skip s).
Proof.
  revert skip. induction s as [|c s IH]; intros skip.
  - simpl. repeat constructor.
  - cbn [split_go]. destruct skip as [|k]; [|apply IH].
    destruct (isPrefix NN (c :: s)) eqn:Hpre.
    + constructor; [reflexivity | apply IH].
    + specialize (IH 0).
      destruct (split_go_head_prefix NN s) as (p & ps & r & Hs & Hr).
      rewrite Hs in IH |- *. inversion IH as [|? ? Hp Hps]; subst.
      constructor; [|exact Hps].
      cbn [occurs]. rewrite Hp, orb_false_r.
      rewrite isPrefix_NN in Hpre |- *.
      destruct p as [|d p]; [apply andb_false_r|].
      cbn [app] in Hpre. exact Hpre.
Qed.

(* ================================================================== *)
(** ** Strategy A *)
(* ================================================================== *)

Lemma in_paragraphs (text p : jstring) :
  In p (paragraphs text) <-> In p (split text NN) /\ truthy (trim p) = true.
Proof.
  unfold paragraphs.
  exact (filter_In (fun q => truthy (trim q)) p (split text NN)).
Qed.

(** The heading test comes first: a segment shorter than 100 code units
    that does not end in a period is a heading whatever it starts with. *)
Lemma classify_heading (p : jstring) :
  length p < 100 -> endsWith p [PERIOD] = false ->
  classify p = mkBlock heading_2 (trim p).
Proof.
  intros Hlen Hend. unfold classify, looksLikeHeading.
  apply Nat.ltb_lt in Hlen. now rewrite Hlen, Hend.
Qed.

Lemma heading_precedes_bullet (text p : jstring) :
  In p (paragraphs text) -> length p < 100 -> endsWith p [PERIOD] = false ->
  In (mkBlock heading_2 (trim p)) (textToNotionBlocks text).
Proof.
  intros Hin Hlen Hend. unfold textToNotionBlocks.
  rewrite <- (classify_heading p Hlen Hend). now apply in_map.
Qed.

(** C1 (the code departs from the claim).  The paragraph ["Title"] padded
    with 95 spaces is, once trimmed, 5 code units long and does not end
    in a period, yet Strategy A emits it as a Paragraph: the heading test
    measures the segment before trimming. *)
Theorem C1_padded_title_is_paragraph :
  paragraphs paddedTitle = [paddedTitle]
  /\ trim paddedTitle = s2j "Title"
  /\ (length (trim paddedTitle) <? 100) = true
  /\ endsWith (trim paddedTitle) [PERIOD] = false
  /\ textToNotionBlocks paddedTitle = [mkBlock paragraph (s2j "Title")].
Proof. repeat split; vm_compute; reflexivity. Qed.

(** C2, as stated, fails: the two paragraphs are not bullet items. *)
Lemma C2_counterexample :
  textToNotionBlocks twoItems
  <> [ mkBlock bulleted_list_item (s2j "item one");
       mkBlock bulleted_list_item (s2j "item two") ].
Proof. vm_compute. discriminate. Qed.

(** C2 (amended).  On ["- item one\n\n- item two"] Strategy A yields two
    Heading blocks that keep their markers: both paragraphs are short and
    do not end in a period, and the heading test precedes the bullet
    test. *)
Theorem C2_two_items_are_headings :
  textToNotionBlocks twoItems
  = [ mkBlock heading_2 (s2j "- item one");
      mkBlock heading_2 (s2j "- item two") ].
Proof. vm_compute. reflexivity. Qed.

(** C9, as stated, fails: a single space is a non-empty text without a
    blank-line separator, and Strategy A yields no block for it. *)
Lemma C9_counterexample :
  [SPACE] <> [] /\ occurs NN [SPACE] = false
  /\ textToNotionBlocks [SPACE] = [].
Proof. repeat split; [discriminate | vm_compute; reflexivity ..]. Qed.

(** C9 (amended).  A text with at least one non-white-space code unit and
    no two consecutive newlines yields exactly one block, the
    classification of the whole text. *)
Theorem C9_single_paragraph (text : jstring) :
  truthy (trim text) = true -> occurs NN text = false ->
  textToNotionBlocks text = [classify text]
  /\ length (textToNotionBlocks text) = 1.
Proof.
  intros Hne Hocc. unfold textToNotionBlocks, paragraphs, split.
  rewrite (split_go_none _ _ Hocc). simpl.
  rewrite Hne. now split.
Qed.

Lemma C9_single_paragraph_witness :
  textToNotionBlocks (s2j "Hello world") = [classify (s2j "Hello world")]
  /\ length (textToNotionBlocks (s2j "Hello world")) = 1.
Proof. apply C9_single_paragraph; reflexivity. Defined.

Lemma filter_all (A : Type) (f : A -> bool) (l : list A) :
  (forall x, In x l -> f x = true) -> filter f l = l.
Proof.
  induction l as [|a l IH]; intros H; [reflexivity|].
  simpl. rewrite (H a (or_introl eq_refl)). f_equal.
  apply IH. intros x Hx. apply H. now right.
Qed.

Lemma map_id_in (A : Type) (f : A -> A) (l : list A) :
  (forall x, In x l -> f x = x) -> map f l = l.
Proof.
  intros H. rewrite <- (map_id l) at 2. now apply map_ext_in.
Qed.

Lemma classify_cases (p : jstring) :
  classify p = mkBlock heading_2 (trim p)
  \/ (startsWithMarker (trim p) = true
      /\ classify p = mkBlock bulleted_list_item (stripMarker (trim p)))
  \/ classify p = mkBlock paragraph (trim p).
Proof.
  unfold classify, startsWithMarker.
  destruct (looksLikeHeading p); [now left|].
  destruct (startsWith (trim p) [BULLET] || startsWith (trim p) [HYPHEN]);
    [right; left; now split | now right; right].
Qed.

Lemma classify_plain_text (p : jstring) :
  notBullet (classify p) = true -> btext (classify p) = trim p.
Proof.
  intros H. destruct (classify_cases p) as [E | [[_ E] | E]]; rewrite E in *;
    [reflexivity | | reflexivity].
  unfold notBullet in H. cbn [btype] in H. rewrite eqb_refl in H. discriminate H.
Qed.

Lemma stripMarker_trimmed (s : jstring) : trimmed s -> trimmed (stripMarker s).
Proof.
  intros [H1 H2]. destruct s as [|c s]; [now split|].
  unfold stripMarker. destruct ((c =? BULLET)%N || (c =? HYPHEN)%N); [|now split].
  split; [apply trimStart_noLead|].
  destruct (trimStart_suffix s) as [w [Hw _]].
  apply (endsWithWs_suffix (c :: w)). simpl. now rewrite <- Hw.
Qed.

(** The text of every block of Strategy A. *)
Lemma blockA_shape (b : block) :
  producedByA b ->
  trimmed (btext b)
  /\ (btype b <> bulleted_list_item -> btext b <> [])
  /\ (btype b = bulleted_list_item ->
      exists p, trimmed p /\ p <> [] /\ startsWithMarker p = true
                /\ btext b = stripMarker p).
Proof.
  intros [text Hin]. unfold textToNotionBlocks in Hin.
  apply in_map_iff in Hin as [p [<- Hp]].
  apply in_paragraphs in Hp as [_ Hne].
  assert (Hnil : trim p <> []) by (intros E; rewrite E in Hne; discriminate).
  destruct (classify_cases p) as [-> | [[Hm ->] | ->]]; simpl.
  - repeat split; [apply trim_trimmed .. | trivial | discriminate].
  - split; [apply stripMarker_trimmed, trim_trimmed|].
    split; [congruence|]. intros _. exists (trim p).
    repeat split; try apply trim_trimmed; assumption.
  - repeat split; [apply trim_trimmed .. | trivial | discriminate].
Qed.

(** C5, as stated, fails: ["- a."] is a BulletItem whose text ["a."] is
    a Paragraph on the second run. *)
Lemma C5_counterexample :
  map btype (textToNotionBlocks bulletSentence) = [bulleted_list_item]
  /\ map btype (rerun bulletSentence) = [paragraph]
  /\ map btype (rerun bulletSentence) <> map btype (textToNotionBlocks bulletSentence).
Proof. repeat split; vm_compute; [reflexivity .. | discriminate]. Qed.

Lemma trim_infix (p : jstring) : exists w1 w2, p = w1 ++ trim p ++ w2.
Proof.
  destruct (trimStart_suffix p) as [w1 [H1 _]].
  destruct (trimEnd_prefix (trimStart p)) as [w2 [H2 _]].
  exists w1, w2. unfold trim. now rewrite <- H2.
Qed.

Lemma occurs_infix (sep a s b : jstring) :
  occurs sep (a ++ s ++ b) = false -> occurs sep s = false.
Proof.
  intros H. destruct (occurs sep s) eqn:E; [|reflexivity].
  apply occurs_spec in E as [x [y ->]].
  assert (Ht : occurs sep (a ++ (x ++ sep ++ y) ++ b) = true).
  { apply occurs_spec. exists (a ++ x), (y ++ b). now rewrite <- !app_assoc. }
  congruence.
Qed.

(** [classify] reads its argument through the heading test and the
    trimmed text only. *)
Lemma classify_trim (p : jstring) :
  stableHeadingTest p = true -> classify (trim p) = classify p.
Proof.
  unfold stableHeadingTest. intros H. apply eqb_prop in H.
  unfold classify. now rewrite <- H, trim_idem.
Qed.

(** C5 (amended).  When no paragraph of the input is classified
    BulletItem and every paragraph passes or fails the heading test alike
    before and after trimming (as every paragraph without leading and
    trailing white space does), joining the block texts with blank lines
    and running Strategy A again reproduces the same blocks, hence the
    same block types. *)
Theorem C5_rerun_without_bullets (text : jstring) :
  forallb stableHeadingTest (paragraphs text) = true ->
  forallb notBullet (textToNotionBlocks text) = true ->
  rerun text = textToNotionBlocks text
  /\ map btype (rerun text) = map btype (textToNotionBlocks text).
Proof.
  intros Hst Hnb.
  assert (E : rerun text = textToNotionBlocks text); [|now rewrite E].
  unfold rerun, textToNotionBlocks in *.
  rewrite forallb_forall in Hst, Hnb.
  assert (Htexts : map btext (map classify (paragraphs text))
                   = map trim (paragraphs text)).
  { rewrite map_map. apply map_ext_in. intros p Hp.
    apply classify_plain_text, Hnb. now apply in_map. }
  rewrite Htexts.
  assert (Hps : paragraphs (join NN (map trim (paragraphs text)))
                = map trim (paragraphs text)).
  { destruct (paragraphs text) as [|p0 ps] eqn:Eps; [reflexivity|].
    unfold paragraphs at 1. rewrite split_join_NN.
    - apply filter_all. intros q Hq. apply in_map_iff in Hq as [p [<- Hp]].
      rewrite trim_idem. rewrite <- Eps in Hp. now apply in_paragraphs in Hp.
    - discriminate.
    - apply Forall_forall. intros q Hq. apply in_map_iff in Hq as [p [<- Hp]].
      split; [|apply trim_trimmed].
      assert (Hin : In p (paragraphs text)) by now rewrite Eps.
      apply in_paragraphs in Hin as [Hin _]. unfold split in Hin.
      pose proof (split_NN_pieces text 0) as Hall.
      rewrite Forall_forall in Hall. specialize (Hall p Hin).
      destruct (trim_infix p) as [w1 [w2 Hw]]. rewrite Hw in Hall.
      now apply occurs_infix in Hall. }
  rewrite Hps, map_map. apply map_ext_in. intros p Hp.
  now apply classify_trim, Hst.
Qed.

Lemma C5_rerun_without_bullets_witness :
  rerun (s2j " Summary") = textToNotionBlocks (s2j " Summary")
  /\ map btype (rerun (s2j " Summary")) = map btype (textToNotionBlocks (s2j " Summary")).
Proof. apply C5_rerun_without_bullets; reflexivity. Defined.

(** Paragraphs without surrounding white space are stable. *)
Lemma trimmed_stable (p : jstring) : trimmed p -> stableHeadingTest p = true.
Proof.
  intros H. unfold stableHeadingTest. rewrite (trimmed_trim p H).
  apply eqb_reflx.
Qed.

(* ================================================================== *)
(** ** Strategy B: the counting object *)
(* ================================================================== *)

Lemma getOwn_In (o : props) (k : jstring) (v : count) :
  getOwn o k = Some v -> In (k, v) o.
Proof.
  unfold getOwn. destruct (find _ o) as [[k' v']|] eqn:E; [|discriminate].
  intros [= <-]. apply find_some in E as [Hin Hk].
  apply eqb_eq in Hk. simpl in Hk. now subst.
Qed.

Lemma getOwn_cons (kv : jstring * count) (o : props) (k : jstring) :
  getOwn (kv :: o) k = if JS.eqb (fst kv) k then Some (snd kv) else getOwn o k.
Proof. unfold getOwn. simpl. now destruct (JS.eqb (fst kv) k). Qed.

Lemma getOwn_app_new (o : props) (k k' : jstring) (v : count) :
  getOwn (o ++ [(k, v)]) k'
  = match getOwn o k' with
    | Some x => Some x
    | None => if JS.eqb k k' then Some v else None
    end.
Proof.
  induction o as [|kv o IH].
  - cbn [app]. rewrite getOwn_cons. reflexivity.
  - cbn [app]. rewrite !getOwn_cons. now destruct (JS.eqb (fst kv) k').
Qed.

Lemma getOwn_update (o : props) (k k' : jstring) (v : count) :
  getOwn (map (fun kv => if JS.eqb (fst kv) k then (k, v) else kv) o) k'
  = if JS.eqb k k'
    then match getOwn o k with Some _ => Some v | None => None end
    else getOwn o k'.
Proof.
  induction o as [|[a x] o IH].
  - cbn. now destruct (JS.eqb k k').
  - cbn [map fst]. rewrite !getOwn_cons. cbn [fst snd].
    destruct (JS.eqb a k) eqn:Eak.
    + apply eqb_eq in Eak. subst a. cbn [fst snd].
      destruct (JS.eqb k k'); [reflexivity | exact IH].
    + cbn [fst snd]. rewrite IH. destruct (JS.eqb k k') eqn:Ekk'.
      * apply eqb_eq in Ekk'. subst k'. now rewrite Eak.
      * reflexivity.
Qed.

Lemma getOwn_setOwn (o : props) (k k' : jstring) (v : count) :
  getOwn (setOwn o k v) k' = if JS.eqb k k' then Some v else getOwn o k'.
Proof.
  unfold setOwn. destruct (getOwn o k) eqn:E.
  - rewrite getOwn_update, E. reflexivity.
  - rewrite getOwn_app_new. destruct (JS.eqb k k') eqn:Ekk'.
    + apply eqb_eq in Ekk'. subst k'. now rewrite E.
    + now destruct (getOwn o k').
Qed.

Lemma setOwn_keys (o : props) (k k' : jstring) (v : count) :
  In k' (map fst (setOwn o k v)) -> In k' (map fst o) \/ k' = k.
Proof.
  unfold setOwn. destruct (getOwn o k).
  - rewrite map_map. intros H. apply in_map_iff in H as [[a x] [Ha Hin]].
    cbn [fst] in Ha. destruct (JS.eqb a k) eqn:E.
    + right. now subst.
    + left. subst. now apply (in_map fst _ (a, x)).
  - rewrite map_app, in_app_iff. simpl. intuition.
Qed.

Lemma bump_keys (o : props) (l k : jstring) :
  In k (map fst (bump o l)) -> In k (map fst o) \/ (k = l /\ l <> []).
Proof.
  unfold bump. destruct l as [|c l]; [now left|].
  cbn [truthy]. intros H.
  assert (Hset : forall v, In k (map fst (setOwn o (c :: l) v)) ->
                 In k (map fst o) \/ (k = c :: l /\ c :: l <> [])).
  { intros v Hv. apply setOwn_keys in Hv as [Hv | Hv]; [now left|].
    right. split; [exact Hv | discriminate]. }
  destruct (getOwn o (c :: l)) as [[n|]|]; try (now apply Hset in H).
  destruct (inherited (c :: l)); [|now apply Hset in H].
  destruct (JS.eqb (c :: l) (s2j "__proto__")); [now left | now apply Hset in H].
Qed.

Lemma fold_bump_keys (ls : list jstring) (o : props) (k : jstring) :
  In k (map fst (fold_left bump ls o)) ->
  In k (map fst o) \/ (In k ls /\ k <> []).
Proof.
  revert o. induction ls as [|l ls IH]; intros o H; [now left|].
  cbn [fold_left] in H. apply IH in H as [H | [H1 H2]].
  - apply bump_keys in H as [H | [-> Hne]]; [now left|].
    right. split; [now left | exact Hne].
  - right. split; [now right | exact H2].
Qed.

Lemma occurrences_app (k : jstring) (l1 l2 : list jstring) :
  occurrences k (l1 ++ l2) = occurrences k l1 + occurrences k l2.
Proof. unfold occurrences. now rewrite filter_app, length_app. Qed.

Lemma occurrences_In (k : jstring) (l : list jstring) :
  1 <= occurrences k l -> In k l.
Proof.
  unfold occurrences. induction l as [|a l IH]; simpl; [lia|].
  destruct (JS.eqb k a) eqn:E; [apply eqb_eq in E; now left | auto].
Qed.

Lemma counted_bump (ls : list jstring) (o : props) (l : jstring) :
  counted ls o -> counted (ls ++ [l]) (bump o l).
Proof.
  intros Hc k Hk Hinh. rewrite occurrences_app.
  unfold occurrences at 2. cbn [filter].
  destruct (JS.eqb k l) eqn:Ekl.
  - apply eqb_eq in Ekl. subst l. cbn [length].
    unfold bump. destruct k as [|c k]; [congruence|]. cbn [truthy].
    rewrite (Hc _ Hk Hinh). destruct (occurrences (c :: k) ls) as [|m].
    + rewrite Hinh, getOwn_setOwn, eqb_refl. reflexivity.
    + rewrite getOwn_setOwn, eqb_refl. simpl. do 2 f_equal. lia.
  - cbn [length]. rewrite Nat.add_0_r, <- (Hc _ Hk Hinh).
    assert (Hkl : JS.eqb l k = false).
    { apply eqb_neq. apply eqb_neq in Ekl. congruence. }
    unfold bump. destruct (truthy l); [|reflexivity].
    destruct (getOwn o l) as [[n|]|].
    + now rewrite getOwn_setOwn, Hkl.
    + now rewrite getOwn_setOwn, Hkl.
    + destruct (inherited l).
      * destruct (JS.eqb l (s2j "__proto__")); [reflexivity|].
        now rewrite getOwn_setOwn, Hkl.
      * now rewrite getOwn_setOwn, Hkl.
Qed.

Lemma counted_fold (ls done : list jstring) (o : props) :
  counted done o -> counted (done ++ ls) (fold_left bump ls o).
Proof.
  revert done o. induction ls as [|l ls IH]; intros done o H.
  - now rewrite app_nil_r.
  - cbn [fold_left]. replace (done ++ l :: ls) with ((done ++ [l]) ++ ls)
      by now rewrite <- app_assoc.
    apply IH. now apply counted_bump.
Qed.

Lemma counted_all (ls : list jstring) : counted ls (fold_left bump ls []).
Proof. apply (counted_fold ls [] []). intros k _ _. reflexivity. Qed.

(** [Object.entries] lists exactly the own properties. *)
Lemma insertByIndex_In (i j : N) (kv kv' : jstring * count)
  (l : list (N * (jstring * count))) :
  In (j, kv') (insertByIndex i kv l) <-> (j, kv') = (i, kv) \/ In (j, kv') l.
Proof.
  induction l as [|[a x] l IH]; simpl.
  - intuition congruence.
  - destruct (i <? a)%N; simpl; [intuition congruence|].
    rewrite IH. intuition congruence.
Qed.

Lemma indexed_In (o : props) (kv : jstring * count) :
  In kv (map snd (indexed o)) <-> In kv o /\ arrayIndex (fst kv) <> None.
Proof.
  induction o as [|a o IH]; simpl.
  - split; [intros [] | intros [[] _]].
  - destruct (arrayIndex (fst a)) as [i|] eqn:E.
    + split.
      * intros H. apply in_map_iff in H as [[j x] [Hx Hin]]. simpl in Hx. subst x.
        apply insertByIndex_In in Hin as [Hin | Hin].
        -- injection Hin as _ ->. split; [now left | congruence].
        -- assert (H' : In kv (map snd (indexed o))).
           { apply in_map_iff. now exists (j, kv). }
           apply IH in H' as [H1 H2]. split; [now right | exact H2].
      * intros [[-> | Hin] Hidx].
        -- apply in_map_iff. exists (i, kv). split; [reflexivity|].
           apply insertByIndex_In. now left.
        -- assert (H' : In kv (map snd (indexed o))) by (apply IH; now split).
           apply in_map_iff in H' as [[j x] [Hx Hin']]. simpl in Hx. subst x.
           apply in_map_iff. exists (j, kv). split; [reflexivity|].
           apply insertByIndex_In. now right.
    + rewrite IH. split.
      * intros [H1 H2]. split; [now right | exact H2].
      * intros [[-> | H1] H2]; [congruence | now split].
Qed.

Lemma Object_entries_In (o : props) (kv : jstring * count) :
  In kv (Object_entries o) <-> In kv o.
Proof.
  unfold Object_entries, named. rewrite in_app_iff, indexed_In, filter_In.
  destruct (arrayIndex (fst kv)); split; intros H.
  - destruct H as [[H _] | [_ H]]; [exact H | discriminate].
  - left. split; [exact H | discriminate].
  - destruct H as [[_ H] | [H _]]; [congruence | exact H].
  - right. now split.
Qed.

Lemma findRepeatedLines_In (n : nat) (ls : list jstring) (k : jstring) :
  In k (findRepeatedLines n ls) ->
  exists v, In (k, v) (fold_left bump ls []) /\ atLeast n v = true.
Proof.
  unfold findRepeatedLines. intros H.
  apply in_map_iff in H as [[k' v] [Hk Hin]]. simpl in Hk. subst k'.
  apply filter_In in Hin as [Hin Hv].
  apply (proj1 (Object_entries_In _ _)) in Hin.
  exists v. split; [exact Hin | exact Hv].
Qed.

(** A repeated line is a non-empty member of the samples. *)
Lemma findRepeatedLines_sound (n : nat) (ls : list jstring) (k : jstring) :
  In k (findRepeatedLines n ls) -> In k ls /\ k <> [].
Proof.
  intros H. apply findRepeatedLines_In in H as [v [Hin _]].
  apply (in_map fst) in Hin. simpl in Hin.
  apply fold_bump_keys in Hin as [[] | H]. exact H.
Qed.

(** A non-empty sample that is not an inherited name and reaches the
    threshold is reported. *)
Lemma findRepeatedLines_complete (n : nat) (ls : list jstring) (k : jstring) :
  k <> [] -> inherited k = false ->
  1 <= occurrences k ls -> reaches (occurrences k ls) n = true ->
  In k (findRepeatedLines n ls).
Proof.
  intros Hk Hinh Hocc Hreach.
  pose proof (counted_all ls k Hk Hinh) as Hget.
  destruct (occurrences k ls) as [|m] eqn:E; [lia|].
  apply getOwn_In in Hget.
  unfold findRepeatedLines. apply in_map_iff. exists (k, Num (S m)).
  split; [reflexivity|]. apply filter_In. split.
  - now apply Object_entries_In.
  - exact Hreach.
Qed.

(* ================================================================== *)
(** ** Numbers: integers convert to non-negative doubles *)
(* ================================================================== *)

Lemma shr_1_nonneg (mrs : shr_record) :
  (0 <= shr_m mrs)%Z -> (0 <= shr_m (shr_1 mrs))%Z.
Proof.
  destruct mrs as [m r s]. destruct m as [|[p|p|]|[p|p|]]; simpl; lia.
Qed.

Lemma iter_shr_1_nonneg (p : positive) (mrs : shr_record) :
  (0 <= shr_m mrs)%Z -> (0 <= shr_m (iter_pos shr_1 p mrs))%Z.
Proof.
  revert mrs. induction p as [p IH|p IH|]; intros mrs H; simpl.
  - apply IH, IH, shr_1_nonneg, H.
  - apply IH, IH, H.
  - apply shr_1_nonneg, H.
Qed.

Lemma shr_fexp_nonneg (m e : Z) (l : location) :
  (0 <= m)%Z -> (0 <= shr_m (fst (shr_fexp prec emax m e l)))%Z.
Proof.
  intros H. unfold shr_fexp, shr.
  assert (H0 : (0 <= shr_m (shr_record_of_loc m l))%Z)
    by (destruct l as [|[]]; exact H).
  destruct (fexp prec emax (Zdigits2 m + e) - e)%Z; simpl;
    [exact H0 | now apply iter_shr_1_nonneg | exact H0].
Qed.

Lemma round_nearest_even_nonneg (m : Z) (l : location) :
  (0 <= m)%Z -> (0 <= round_nearest_even m l)%Z.
Proof.
  intros H. destruct l as [|[]]; simpl; try lia.
  destruct (Z.even m); lia.
Qed.

Lemma binary_round_aux_nonneg (mx ex : Z) (lx : location) :
  (0 <= mx)%Z -> nonNegative (binary_round_aux prec emax false mx ex lx).
Proof.
  intros H. unfold binary_round_aux.
  pose proof (shr_fexp_nonneg mx ex lx H) as H1.
  destruct (shr_fexp prec emax mx ex lx) as [mrs' e']. simpl in H1.
  pose proof (shr_fexp_nonneg _ e' loc_Exact
                (round_nearest_even_nonneg _ (loc_of_shr_record mrs') H1)) as H2.
  destruct (shr_fexp prec emax _ e' loc_Exact) as [mrs'' e'']. simpl in H2.
  destruct (shr_m mrs'') as [|m|m]; [reflexivity | | lia].
  destruct (e'' <=? emax - prec)%Z; reflexivity.
Qed.

Lemma ofNat_nonneg (c : nat) : nonNegative (ofNat c).
Proof.
  unfold ofNat, ofZ, binary_normalize.
  destruct (Z.of_nat c) as [|p|p] eqn:E; [reflexivity | | lia].
  unfold binary_round.
  destruct (shl_align p 0 _) as [mz ez]. now apply binary_round_aux_nonneg.
Qed.

(** With one page the threshold [Math.floor(1 * 0.7)] is [+0], which
    every count reaches. *)
Lemma reaches_one_page (c : nat) : reaches c 1 = true.
Proof.
  unfold reaches. change (threshold 1) with (S754_zero false).
  pose proof (ofNat_nonneg c) as H.
  destruct (ofNat c) as [s|s| |s m e]; simpl in H; subst; try reflexivity.
  contradiction.
Qed.

(** Up to 2000 pages or fragments the threshold is the integer part of
    7n/10 or, at some multiples of 10, one less. *)
Lemma threshold_nearFloor (n : nat) : n <= 2000 -> nearFloor n = true.
Proof.
  intros H.
  assert (Hall : forallb nearFloor (seq 0 2001) = true) by (vm_compute; reflexivity).
  rewrite forallb_forall in Hall. apply Hall, in_seq. lia.
Qed.

Example threshold_10 : threshold 10 = ofZ 7.
Proof. vm_compute. reflexivity. Qed.

(** Double rounding of the product shows at 90: the threshold is 62,
    one below the integer part of 63. *)
Example threshold_90 : threshold 90 = ofZ 62.
Proof. vm_compute. reflexivity. Qed.

(* ================================================================== *)
(** ** Strategy B: lines and blocks *)
(* ================================================================== *)

Lemma tags_distinct :
  heading_2 <> bulleted_list_item /\ paragraph <> bulleted_list_item
  /\ heading_2 <> paragraph.
Proof. repeat split; intros H; vm_compute in H; discriminate H. Qed.

Lemma includes_spec (arr : list jstring) (t : jstring) :
  includes arr t = true <-> In t arr.
Proof.
  unfold includes. rewrite existsb_exists. split.
  - intros [x [Hin Hx]]. apply eqb_eq in Hx. now subst.
  - intros H. exists t. split; [exact H | apply eqb_refl].
Qed.

Lemma includes_false (arr : list jstring) (t : jstring) :
  includes arr t = false <-> ~ In t arr.
Proof.
  rewrite <- includes_spec. destruct (includes arr t); split; congruence.
Qed.

Lemma filter_map_length (A B : Type) (f : A -> B) (p : B -> bool) (l : list A) :
  length (filter p (map f l)) = length (filter (fun a => p (f a)) l).
Proof.
  induction l as [|a l IH]; [reflexivity|].
  simpl. destruct (p (f a)); simpl; now rewrite IH.
Qed.

Lemma isHeading_spec (line : list item) :
  isHeading line
  = reaches (atMax line) (length line) && SFltb ten (Math_max (map height line)).
Proof. unfold isHeading, atMax. now rewrite filter_map_length. Qed.

Lemma lineBlock_kept (hs fs : list jstring) (line : list item) :
  truthy (lineText line) = true ->
  includes hs (lineText line) = false -> includes fs (lineText line) = false ->
  lineBlock hs fs line
  = Some (mkBlock (if isHeading line then heading_2 else paragraph) (lineText line)).
Proof.
  intros H1 H2 H3. unfold lineBlock. rewrite H1, H2, H3. simpl.
  now destruct (isHeading line).
Qed.

Lemma lineBlock_Some (hs fs : list jstring) (line : list item) (b : block) :
  lineBlock hs fs line = Some b ->
  b = mkBlock (if isHeading line then heading_2 else paragraph) (lineText line)
  /\ truthy (lineText line) = true
  /\ includes hs (lineText line) = false /\ includes fs (lineText line) = false.
Proof.
  unfold lineBlock. destruct (truthy (lineText line)); simpl; [|discriminate].
  destruct (includes hs (lineText line)); simpl; [discriminate|].
  destruct (includes fs (lineText line)); simpl; [discriminate|].
  destruct (isHeading line); intros [= <-]; now repeat split.
Qed.

Lemma bodyBlocks_In (hs fs : list jstring) (apb : list (list (list item))) (b : block) :
  In b (bodyBlocks hs fs apb) <->
  exists line, In line (concat apb) /\ lineBlock hs fs line = Some b.
Proof.
  unfold bodyBlocks. rewrite in_flat_map. split.
  - intros [lines [Hl Hb]]. apply in_flat_map in Hb as [line [Hline Hb]].
    exists line. split; [apply in_concat; now exists lines|].
    destruct (lineBlock hs fs line) as [b'|]; simpl in Hb; [|contradiction].
    destruct Hb as [-> | []]. reflexivity.
  - intros [line [Hin Hb]]. apply in_concat in Hin as [lines [Hl Hline]].
    exists lines. split; [exact Hl|]. apply in_flat_map. exists line.
    split; [exact Hline|]. rewrite Hb. now left.
Qed.

Lemma blocks_parsePDF (pages : list page) :
  blocks (parsePDF pages)
  = headerBlock (repeatedHeaders (parsePDF pages)) ++ body pages
      ++ headerBlock (repeatedFooters (parsePDF pages)).
Proof. reflexivity. Qed.

Lemma firstLine_lineText (lines : list (list item)) (h : jstring) :
  In h (firstLine lines) -> exists l, In l lines /\ h = lineText l.
Proof.
  destruct lines as [|l ls]; simpl; [intros [] | intros [<- | []]].
  exists l. split; [now left | reflexivity].
Qed.

Lemma lastLine_lineText (lines : list (list item)) (h : jstring) :
  In h (lastLine lines) -> exists l, In l lines /\ h = lineText l.
Proof.
  destruct lines as [|l ls]; cbn [lastLine]; [intros [] | intros [<- | []]].
  exists (last (l :: ls) l). split; [|reflexivity].
  destruct (exists_last (l := l :: ls)) as [ini [z E]]; [discriminate|].
  rewrite E, last_last. apply in_or_app. right. now left.
Qed.

Lemma samples_trimmed (pages : list page) (h : jstring) :
  In h (firstLines pages) \/ In h (lastLines pages) -> trimmed h.
Proof.
  unfold firstLines, lastLines. intros [H | H];
    apply in_flat_map in H as [lines [_ H]];
    [apply firstLine_lineText in H | apply lastLine_lineText in H];
    destruct H as [l [_ ->]]; apply trim_trimmed.
Qed.

Lemma truthy_nonempty (s : jstring) : truthy s = true <-> s <> [].
Proof. destruct s; simpl; split; congruence. Qed.

(** The text of a body block is a kept line: non-empty, trimmed, and
    not one of the repeated strings. *)
Lemma body_block (pages : list page) (b : block) :
  In b (body pages) ->
  btext b <> [] /\ trimmed (btext b)
  /\ ~ In (btext b) (repeatedHeaders (parsePDF pages))
  /\ ~ In (btext b) (repeatedFooters (parsePDF pages))
  /\ (btype b = heading_2 \/ btype b = paragraph).
Proof.
  unfold body. intros H. apply bodyBlocks_In in H as [line [_ H]].
  apply lineBlock_Some in H as (-> & H1 & H2 & H3). cbn [btext btype].
  repeat split.
  - now apply truthy_nonempty.
  - apply trim_trimmed.
  - apply trim_trimmed.
  - now apply includes_false.
  - now apply includes_false.
  - destruct (isHeading line); [now left | now right].
Qed.

Lemma headerBlock_In (hs : list jstring) (b : block) :
  In b (headerBlock hs) -> b = mkBlock paragraph (btext b) /\ In (btext b) hs.
Proof.
  destruct hs as [|h hs]; simpl; [intros [] | intros [<- | []]].
  split; [reflexivity | now left].
Qed.

(** The text of every block of Strategy B. *)
Lemma blockB_shape (b : block) :
  producedByB b ->
  trimmed (btext b) /\ btext b <> [] /\ btype b <> bulleted_list_item.
Proof.
  intros [pages Hin]. rewrite blocks_parsePDF in Hin.
  destruct tags_distinct as (Th & Tp & _).
  assert (Hrep : forall ls, In (btext b) (findRepeatedLines (length pages) ls) ->
                 (forall h, In h ls -> trimmed h) ->
                 b = mkBlock paragraph (btext b) ->
                 trimmed (btext b) /\ btext b <> [] /\ btype b <> bulleted_list_item).
  { intros ls Hk Htr Hb. apply findRepeatedLines_sound in Hk as [Hk Hne].
    repeat split; try apply (Htr _ Hk); [exact Hne | now rewrite Hb]. }
  apply in_app_or in Hin as [Hin | Hin]; [|apply in_app_or in Hin as [Hin | Hin]].
  - apply headerBlock_In in Hin as [Hb Hk]. apply (Hrep _ Hk); [|exact Hb].
    intros h Hh. apply (samples_trimmed pages). now left.
  - apply body_block in Hin as (H1 & H2 & _ & _ & [H5 | H5]);
      repeat split; try apply H2; try exact H1; now rewrite H5.
  - apply headerBlock_In in Hin as [Hb Hk]. apply (Hrep _ Hk); [|exact Hb].
    intros h Hh. apply (samples_trimmed pages). now right.
Qed.

(** C4, as stated, fails: the paragraph ["--a."] is a BulletItem whose
    text ["-a."] still begins with a marker. *)
Lemma C4_counterexample :
  exists b, producedByA b /\ btype b = bulleted_list_item
            /\ startsWithMarker (btext b) = true.
Proof.
  exists (mkBlock bulleted_list_item (s2j "-a.")). split; [|split; reflexivity].
  exists doubleDash. vm_compute. now left.
Qed.

Lemma Forall2_map_r (A B : Type) (R : A -> B -> Prop) (f : A -> B) (l : list A) :
  (forall a, In a l -> R a (f a)) -> Forall2 R l (map f l).
Proof.
  induction l as [|a l IH]; intros H; [constructor|].
  cbn [map]. constructor; [apply H; now left | apply IH].
  intros x Hx. apply H. now right.
Qed.

Lemma classify_text (p : jstring) :
  truthy (trim p) = true -> textOfParagraph p (classify p).
Proof.
  intros Hne. apply truthy_nonempty in Hne.
  destruct tags_distinct as (Thb & Tpb & _).
  destruct (classify_cases p) as [-> | [[Hm ->] | ->]]; unfold textOfParagraph;
    cbn [btext btype].
  - split; [apply trim_trimmed|]. split; [now split | intros H; contradiction].
  - split; [apply stripMarker_trimmed, trim_trimmed|].
    split; [intros H; now contradiction H|]. intros _.
    destruct (trim p) as [|c s'] eqn:E; [congruence|].
    unfold startsWithMarker, startsWith in Hm. cbn [isPrefix] in Hm.
    rewrite !andb_true_r in Hm.
    assert (Hc : c = BULLET \/ c = HYPHEN).
    { apply orb_true_iff in Hm as [H | H]; apply N.eqb_eq in H; auto. }
    assert (Hs : stripMarker (c :: s') = trimStart s').
    { unfold stripMarker. destruct Hc as [-> | ->]; reflexivity. }
    rewrite Hs. destruct (trimStart_suffix s') as [w [Hw Hall]].
    exists c, w. repeat split; [exact Hc | exact Hall | now rewrite <- Hw].
  - split; [apply trim_trimmed|]. split; [now split | intros H; contradiction].
Qed.

(** C4 (amended).  The text of every block of either strategy has no
    leading or trailing white space.  In Strategy A the text of a Heading
    or Paragraph block is the trimmed paragraph it was made from, and
    non-empty; the text of a BulletItem block is that trimmed paragraph
    without its first marker and the white space after it (a second
    marker stays).  In Strategy B every text is non-empty and no block is
    a BulletItem. *)
Theorem C4_block_text (text : jstring) (pages : list page) :
  Forall2 textOfParagraph (paragraphs text) (textToNotionBlocks text)
  /\ (forall b, In b (blocks (parsePDF pages)) ->
      trimmed (btext b) /\ btext b <> [] /\ btype b <> bulleted_list_item).
Proof.
  split.
  - unfold textToNotionBlocks. apply Forall2_map_r. intros p Hp.
    apply in_paragraphs in Hp as [_ Hne]. now apply classify_text.
  - intros b Hb. apply blockB_shape. now exists pages.
Qed.

Lemma C4_block_text_witness :
  exists m ws,
    (m = BULLET \/ m = HYPHEN) /\ forallb isWhiteSpace ws = true
    /\ trim doubleDash = m :: ws ++ s2j "-a.".
Proof.
  pose proof (proj1 (C4_block_text doubleDash [])) as H.
  change (Forall2 textOfParagraph [doubleDash]
            [mkBlock bulleted_list_item (s2j "-a.")]) in H.
  inversion H as [|p b ps bs (_ & _ & Hb) _]; subst.
  apply Hb. reflexivity.
Defined.

Lemma occurrences_none (k : jstring) (l : list jstring) :
  ~ In k l -> occurrences k l = 0.
Proof.
  unfold occurrences. induction l as [|a l IH]; intros H; [reflexivity|].
  simpl. destruct (JS.eqb k a) eqn:E.
  - apply eqb_eq in E. subst a. exfalso. apply H. now left.
  - apply IH. intros Hin. apply H. now right.
Qed.

Lemma body_texts_skip (pages : list page) (T : jstring) :
  In T (repeatedHeaders (parsePDF pages)) \/ In T (repeatedFooters (parsePDF pages)) ->
  ~ In T (map btext (body pages)).
Proof.
  intros HT Hin. apply in_map_iff in Hin as [b [<- Hb]].
  apply body_block in Hb as (_ & _ & H1 & H2 & _). tauto.
Qed.

(** C3, as stated, fails: with two one-line pages ["A"] and ["B"] the
    threshold is 1, so ["B"] is the first line of enough pages, yet only
    the first detected header ["A"] is emitted and ["B"] is nowhere in
    the output. *)
Lemma C3_counterexample :
  occurrences (s2j "B") (firstLines twoPages) = 1
  /\ reaches 1 (length twoPages) = true
  /\ occurrences (s2j "B") (map btext (blocks (parsePDF twoPages))) = 0.
Proof. repeat split; vm_compute; reflexivity. Qed.

(** C3 (amended).  Let a non-empty text [T], not a property name every
    object inherits, be the trimmed first line of at least one page and
    of at least [Math.floor(pageCount * 0.7)] pages.  Then [T] is a
    detected repeated header and no body block holds it; the first block
    of the output is a Paragraph holding the first detected repeated
    header; and when that header is [T] and the first detected repeated
    footer is not, [T] occurs exactly once in the output, as its first
    block. *)
Theorem C3_repeated_header (pages : list page) (T : jstring) :
  truthy T = true -> inherited T = false ->
  1 <= occurrences T (firstLines pages) ->
  reaches (occurrences T (firstLines pages)) (length pages) = true ->
  In T (repeatedHeaders (parsePDF pages))
  /\ (forall b, In b (body pages) -> btext b <> T)
  /\ (exists h rest,
        repeatedHeaders (parsePDF pages) = h :: rest
        /\ blocks (parsePDF pages)
           = mkBlock paragraph h :: body pages
               ++ headerBlock (repeatedFooters (parsePDF pages)))
  /\ (hd_error (repeatedHeaders (parsePDF pages)) = Some T ->
      hd_error (repeatedFooters (parsePDF pages)) <> Some T ->
      hd_error (blocks (parsePDF pages)) = Some (mkBlock paragraph T)
      /\ occurrences T (map btext (blocks (parsePDF pages))) = 1).
Proof.
  intros HT Hinh Hocc Hreach. apply truthy_nonempty in HT.
  assert (Hin : In T (repeatedHeaders (parsePDF pages)))
    by now apply findRepeatedLines_complete.
  pose proof (body_texts_skip pages T (or_introl Hin)) as Hbody.
  split; [exact Hin|]. split; [|split].
  - intros b Hb E. apply Hbody. rewrite <- E. now apply in_map.
  - rewrite blocks_parsePDF.
    destruct (repeatedHeaders (parsePDF pages)) as [|h rest]; [destruct Hin|].
    now exists h, rest.
  - intros Hh Hf. rewrite blocks_parsePDF.
    destruct (repeatedHeaders (parsePDF pages)) as [|h rest]; [discriminate Hh|].
    injection Hh as ->. split; [reflexivity|].
    cbn [headerBlock app map btext]. rewrite map_app.
    change (T :: map btext (body pages) ++ ?r)
      with ([T] ++ map btext (body pages) ++ r).
    rewrite !occurrences_app, (occurrences_none _ _ Hbody).
    unfold occurrences at 1. cbn [filter]. rewrite eqb_refl. cbn [length].
    rewrite occurrences_none; [reflexivity|].
    destruct (repeatedFooters (parsePDF pages)) as [|f fs]; [intros []|].
    intros [E | []]. apply Hf. simpl in E |- *. now rewrite E.
Qed.

Lemma C3_repeated_header_witness :
  hd_error (blocks (parsePDF bodyPage)) = Some (mkBlock paragraph (s2j "Title"))
  /\ occurrences (s2j "Title") (map btext (blocks (parsePDF bodyPage))) = 1.
Proof.
  assert (H1 : truthy (s2j "Title") = true) by reflexivity.
  assert (H2 : inherited (s2j "Title") = false) by reflexivity.
  assert (H3 : 1 <= occurrences (s2j "Title") (firstLines bodyPage))
    by (vm_compute; lia).
  assert (H4 : reaches (occurrences (s2j "Title") (firstLines bodyPage))
                 (length bodyPage) = true) by (vm_compute; reflexivity).
  destruct (C3_repeated_header bodyPage (s2j "Title") H1 H2 H3 H4)
    as (_ & _ & _ & H).
  apply H; vm_compute; [reflexivity | discriminate].
Defined.

(** C7, as stated, fails: the blank middle line of [blankLinePage] is
    not equal to a repeated header or footer, its one fragment has the
    maximal height 12 > 10, and yet no block is emitted for it. *)
Lemma C7_counterexample :
  In [frag " " 10 12] (allLines blankLinePage)
  /\ includes (repeatedHeaders (parsePDF blankLinePage)) (lineText [frag " " 10 12]) = false
  /\ includes (repeatedFooters (parsePDF blankLinePage)) (lineText [frag " " 10 12]) = false
  /\ reaches (atMax [frag " " 10 12]) (length [frag " " 10 12]) = true
  /\ SFltb ten (Math_max (map height [frag " " 10 12])) = true
  /\ lineBlock (repeatedHeaders (parsePDF blankLinePage))
       (repeatedFooters (parsePDF blankLinePage)) [frag " " 10 12] = None
  /\ ~ In heading_2 (map btype (blocks (parsePDF blankLinePage))).
Proof.
  repeat split; try (vm_compute; reflexivity).
  - vm_compute. right. left. reflexivity.
  - vm_compute. intros [H | [H | []]]; discriminate H.
Qed.

(** C7 (amended).  A line of the document whose trimmed text is
    non-empty and equal to no repeated header or footer yields one
    block holding that text; the block is a Heading if and only if at
    least [Math.floor(fragmentCount * 0.7)] of the fragments have the
    maximal height of the line and that height exceeds 10, and a
    Paragraph otherwise. *)
Theorem C7_heading_iff (pages : list page) (line : list item) :
  In line (allLines pages) ->
  truthy (lineText line) = true ->
  includes (repeatedHeaders (parsePDF pages)) (lineText line) = false ->
  includes (repeatedFooters (parsePDF pages)) (lineText line) = false ->
  exists b,
    lineBlock (repeatedHeaders (parsePDF pages)) (repeatedFooters (parsePDF pages)) line
    = Some b
    /\ In b (blocks (parsePDF pages))
    /\ btext b = lineText line
    /\ (btype b = heading_2 <->
        reaches (atMax line) (length line) = true
        /\ SFltb ten (Math_max (map height line)) = true)
    /\ (btype b <> heading_2 -> btype b = paragraph).
Proof.
  intros Hin Hne Hh Hf.
  pose proof (lineBlock_kept _ _ line Hne Hh Hf) as Hb.
  eexists. split; [exact Hb|]. split; [|split; [reflexivity|]].
  - rewrite blocks_parsePDF. apply in_or_app. right. apply in_or_app. left.
    unfold body. apply bodyBlocks_In. exists line. now split.
  - cbn [btype]. rewrite isHeading_spec, <- andb_true_iff.
    destruct tags_distinct as (_ & _ & Thp).
    destruct (reaches (atMax line) (length line)
              && SFltb ten (Math_max (map height line))); split.
    + split; reflexivity.
    + intros H. now contradiction H.
    + split; [intros H; symmetry in H; contradiction | discriminate].
    + reflexivity.
Qed.

Lemma C7_heading_iff_witness :
  exists b,
    lineBlock (repeatedHeaders (parsePDF bodyPage)) (repeatedFooters (parsePDF bodyPage))
      [frag "Some body text" 10 9]
    = Some b
    /\ In b (blocks (parsePDF bodyPage))
    /\ btext b = lineText [frag "Some body text" 10 9]
    /\ (btype b = heading_2 <->
        reaches (atMax [frag "Some body text" 10 9]) (length [frag "Some body text" 10 9]) = true
        /\ SFltb ten (Math_max (map height [frag "Some body text" 10 9])) = true)
    /\ (btype b <> heading_2 -> btype b = paragraph).
Proof.
  apply (C7_heading_iff bodyPage [frag "Some body text" 10 9]);
    vm_compute; [right; left; reflexivity | reflexivity ..].
Defined.

(** *** Single-page documents *)

Lemma findRepeatedLines_single (F : jstring) :
  truthy F = true -> inherited F = false -> findRepeatedLines 1 [F] = [F].
Proof.
  intros HF Hinh. unfold findRepeatedLines. cbn [fold_left].
  unfold bump. rewrite HF. cbn [getOwn find]. rewrite Hinh.
  unfold setOwn. cbn [getOwn find app].
  unfold Object_entries, named. cbn [indexed filter fst].
  destruct (arrayIndex F); reflexivity.
Qed.

(** On a single page whose first line has a non-empty text that is not
    an inherited property name, that text is the one repeated header: it
    is the first block, a Paragraph, and no body block holds it. *)
Lemma single_page_header (p : page) (l : list item) (ls : list (list item)) :
  groupLines p = l :: ls ->
  truthy (lineText l) = true -> inherited (lineText l) = false ->
  repeatedHeaders (parsePDF [p]) = [lineText l]
  /\ hd_error (blocks (parsePDF [p])) = Some (mkBlock paragraph (lineText l))
  /\ forall b, In b (body [p]) -> btext b <> lineText l.
Proof.
  intros Hg HF Hinh.
  assert (Hh : repeatedHeaders (parsePDF [p]) = [lineText l]).
  { unfold parsePDF, firstLines, allPageBlocks. cbn [repeatedHeaders map flat_map length].
    rewrite Hg. cbn [firstLine app]. now apply findRepeatedLines_single. }
  split; [exact Hh|]. split.
  - rewrite blocks_parsePDF, Hh. reflexivity.
  - intros b Hb E.
    apply (body_texts_skip [p] (lineText l)); [left; rewrite Hh; now left|].
    rewrite <- E. now apply in_map.
Qed.

(** The same for the last line and the footer, which is the last
    block. *)
Lemma single_page_footer (p : page) (l : list item) (ls : list (list item)) :
  groupLines p = l :: ls ->
  truthy (lineText (last (l :: ls) l)) = true ->
  inherited (lineText (last (l :: ls) l)) = false ->
  repeatedFooters (parsePDF [p]) = [lineText (last (l :: ls) l)]
  /\ (exists front,
        blocks (parsePDF [p])
        = front ++ [mkBlock paragraph (lineText (last (l :: ls) l))])
  /\ forall b, In b (body [p]) -> btext b <> lineText (last (l :: ls) l).
Proof.
  intros Hg HF Hinh.
  assert (Hf : repeatedFooters (parsePDF [p]) = [lineText (last (l :: ls) l)]).
  { unfold parsePDF, lastLines, allPageBlocks. cbn [repeatedFooters map flat_map length].
    rewrite Hg. cbn [lastLine app]. now apply findRepeatedLines_single. }
  split; [exact Hf|]. split.
  - rewrite blocks_parsePDF, Hf. cbn [headerBlock].
    exists (headerBlock (repeatedHeaders (parsePDF [p])) ++ body [p]).
    now rewrite <- app_assoc.
  - intros b Hb E.
    apply (body_texts_skip [p] (lineText (last (l :: ls) l)));
      [right; rewrite Hf; now left|].
    rewrite <- E. now apply in_map.
Qed.

(** C10 (the code departs from the claim).  On the single page whose
    only line reads ["constructor"], the threshold is 0 and the text is
    counted once, but [counts] inherits a property of that name, the
    stored count is not a number, and no repeated header or footer is
    detected: the line stays in the body, as a Heading. *)
Theorem C10_constructor_page :
  length constructorPage = 1
  /\ firstLines constructorPage = [s2j "constructor"]
  /\ lastLines constructorPage = [s2j "constructor"]
  /\ threshold 1 = S754_zero false
  /\ fold_left bump (firstLines constructorPage) [] = [(s2j "constructor", NaS)]
  /\ parsePDF constructorPage
     = mkParsed [mkBlock heading_2 (s2j "constructor")] 1 [] [].
Proof. repeat split; vm_compute; reflexivity. Qed.

(* ================================================================== *)
(** ** Publish adapter *)
(* ================================================================== *)

(** C6, as stated, fails for one of the handlers it is drawn from: the
    older handler has no bullet case and sends a BulletItem as a
    paragraph. *)
Lemma C6_counterexample :
  toNotionBlock_legacy (mkBlock bulleted_list_item (s2j "item one"))
  = mkNotionBlock (s2j "block") (s2j "paragraph") (s2j "paragraph")
      [mkRichText (s2j "text") (s2j "item one")]
  /\ nb_type (toNotionBlock_legacy (mkBlock bulleted_list_item (s2j "item one")))
     <> s2j "bulleted_list_item".
Proof. split; [reflexivity | vm_compute; discriminate]. Qed.

(** C6 (amended).  Both handlers map a block by its type and are total.
    A Heading becomes a [heading_2] container; a Paragraph or a block of
    any other type becomes a [paragraph] container; a BulletItem becomes
    a [bulleted_list_item] container in the current handler and a
    [paragraph] container in the older handler, which has no bullet
    case.  Every container is an object [block] with the one rich-text
    run of type [text] holding the block's text.  On the JSON object of
    the block the callback of the current handler returns that container,
    and it raises no exception on any element other than [null]. *)
Theorem C6_toNotionBlock (b : block) :
  (btype b = s2j "heading_2" ->
   toNotionBlock b
   = mkNotionBlock (s2j "block") (s2j "heading_2") (s2j "heading_2")
       [mkRichText (s2j "text") (btext b)]
   /\ toNotionBlock_legacy b
      = mkNotionBlock (s2j "block") (s2j "heading_2") (s2j "heading_2")
          [mkRichText (s2j "text") (btext b)])
  /\ (btype b = s2j "bulleted_list_item" ->
      toNotionBlock b
      = mkNotionBlock (s2j "block") (s2j "bulleted_list_item")
          (s2j "bulleted_list_item") [mkRichText (s2j "text") (btext b)]
      /\ toNotionBlock_legacy b
         = mkNotionBlock (s2j "block") (s2j "paragraph") (s2j "paragraph")
             [mkRichText (s2j "text") (btext b)])
  /\ (btype b <> s2j "heading_2" -> btype b <> s2j "bulleted_list_item" ->
      toNotionBlock b
      = mkNotionBlock (s2j "block") (s2j "paragraph") (s2j "paragraph")
          [mkRichText (s2j "text") (btext b)]
      /\ toNotionBlock_legacy b
         = mkNotionBlock (s2j "block") (s2j "paragraph") (s2j "paragraph")
             [mkRichText (s2j "text") (btext b)])
  /\ Create.toApiBlock (FrontEnd.blockJson b) = Ok (liftBlock (toNotionBlock b))
  /\ (forall element : json, element <> JNull -> Create.toApiBlock element <> Throw).
Proof.
  assert (Thb : s2j "heading_2" <> s2j "bulleted_list_item")
    by (intros H; vm_compute in H; discriminate H).
  assert (Hjson : Create.toApiBlock (FrontEnd.blockJson b)
                  = Ok (liftBlock (toNotionBlock b))).
  { unfold Create.toApiBlock, FrontEnd.blockJson, liftBlock, toNotionBlock.
    cbn [Create.read Create.fieldName].
    change (lookupLast (s2j "type") _) with (Some (JString (btype b))).
    change (lookupLast (s2j "text") _) with (Some (JString (btext b))).
    cbn [bind Create.kindOf].
    destruct (JS.eqb (btype b) (s2j "heading_2")); [reflexivity|].
    destruct (JS.eqb (btype b) (s2j "bulleted_list_item")); reflexivity. }
  assert (Hth : forall element : json,
             element <> JNull -> Create.toApiBlock element <> Throw).
  { intros [| | | | |] Hn; try discriminate; now contradiction Hn. }
  split; [|split; [|split; [|split; [exact Hjson | exact Hth]]]];
    clear Hjson Hth; unfold toNotionBlock, toNotionBlock_legacy, container;
    (destruct (JS.eqb (btype b) (s2j "heading_2")) eqn:E1;
     [apply eqb_eq in E1 | apply eqb_neq in E1]);
    (destruct (JS.eqb (btype b) (s2j "bulleted_list_item")) eqn:E2;
     [apply eqb_eq in E2 | apply eqb_neq in E2]);
    intros; try split; try reflexivity; congruence.
Qed.

Lemma C6_toNotionBlock_witness :
  toNotionBlock (mkBlock bulleted_list_item (s2j "item one"))
  = mkNotionBlock (s2j "block") (s2j "bulleted_list_item")
      (s2j "bulleted_list_item") [mkRichText (s2j "text") (s2j "item one")]
  /\ toNotionBlock_legacy (mkBlock bulleted_list_item (s2j "item one"))
     = mkNotionBlock (s2j "block") (s2j "paragraph") (s2j "paragraph")
         [mkRichText (s2j "text") (s2j "item one")].
Proof.
  apply (proj1 (proj2 (C6_toNotionBlock (mkBlock bulleted_list_item (s2j "item one"))))).
  reflexivity.
Defined.

(** The older handler has no bullet case: there a BulletItem falls to
    the paragraph default. *)
Lemma toNotionBlock_legacy_spec (b : block) :
  (btype b = heading_2 -> toNotionBlock_legacy b = container heading_2 (btext b))
  /\ (btype b <> heading_2 -> toNotionBlock_legacy b = container paragraph (btext b)).
Proof.
  unfold toNotionBlock_legacy. change (s2j "heading_2") with heading_2.
  change (s2j "paragraph") with paragraph.
  destruct (JS.eqb (btype b) heading_2) eqn:E1;
    [apply eqb_eq in E1 | apply eqb_neq in E1];
    split; intros; try reflexivity; congruence.
Qed.

(** Truncation to the first hundred blocks, in order. *)
Lemma children_length (bs : list block) :
  length (children bs) = Nat.min 100 (length bs).
Proof. unfold children. now rewrite length_firstn, length_map. Qed.

(* ================================================================== *)
(** ** Salvage *)
(* ================================================================== *)

Lemma salvage_unparsed (numToBoolean : jstring -> bool)
  (numToString : jstring -> jstring) (raw : jstring) :
  JSON_parse (stripFences raw) = None ->
  salvage numToBoolean numToString raw = raw.
Proof. intros H. unfold salvage. now rewrite H. Qed.

(** C8.  The fenced array with the one object [{"text":"Hello"}] is
    salvaged to ["Hello"]; ["Hello world"] does not parse and comes back
    unchanged, as does every response that does not parse as JSON once
    the fence lines are removed. *)
Theorem C8_salvage (numToBoolean : jstring -> bool)
  (numToString : jstring -> jstring) :
  salvage numToBoolean numToString fencedHello = s2j "Hello"
  /\ JSON_parse (stripFences (s2j "Hello world")) = None
  /\ salvage numToBoolean numToString (s2j "Hello world") = s2j "Hello world"
  /\ forall raw, JSON_parse (stripFences raw) = None ->
                 salvage numToBoolean numToString raw = raw.
Proof.
  repeat split; try (vm_compute; reflexivity).
  intros raw. apply salvage_unparsed.
Qed.

Lemma C8_salvage_witness :
  salvage (fun _ => true) (fun lexeme => lexeme) (s2j "Hello world")
  = s2j "Hello world".
Proof.
  apply (proj2 (proj2 (proj2 (C8_salvage (fun _ => true) (fun lexeme => lexeme))))).
  vm_compute. reflexivity.
Defined.

(* ================================================================== *)
(** ** Line grouping *)
(* ================================================================== *)

Lemma concat_pushLine (lines : list (list item)) (cur : list item) :
  concat (pushLine lines cur) = concat lines ++ cur.
Proof.
  destruct cur as [|a cur]; simpl; [now rewrite app_nil_r|].
  rewrite concat_app. simpl. now rewrite app_nil_r.
Qed.

Lemma groupLines_go_concat (content : list item) (lines : list (list item))
  (cur : list item) (lastY : option num) :
  concat (groupLines_go content lines cur lastY) = concat lines ++ cur ++ content.
Proof.
  revert lines cur lastY. induction content as [|it rest IH]; intros lines cur lastY.
  - simpl. now rewrite concat_pushLine, app_nil_r.
  - cbn [groupLines_go]. destruct lastY as [ly|].
    + destruct (SFltb two (SFabs (sub (y it) ly))); rewrite IH.
      * now rewrite concat_pushLine, <- app_assoc.
      * now rewrite <- app_assoc.
    + rewrite IH. now rewrite <- app_assoc.
Qed.

(** X1.  Line grouping loses, duplicates and reorders nothing: the lines
    of a page, put end to end, are the fragments of the page. *)
Theorem groupLines_concat (p : page) : concat (groupLines p) = p.
Proof. unfold groupLines. now rewrite groupLines_go_concat. Qed.

Lemma pushLine_nonempty (lines : list (list item)) (cur : list item) :
  Forall (fun l => l <> []) lines -> Forall (fun l => l <> []) (pushLine lines cur).
Proof.
  intros H. destruct cur as [|a cur]; [exact H|].
  simpl. apply Forall_app. split; [exact H|]. now repeat constructor.
Qed.

Lemma groupLines_go_nonempty (content : list item) (lines : list (list item))
  (cur : list item) (lastY : option num) :
  Forall (fun l => l <> []) lines ->
  Forall (fun l => l <> []) (groupLines_go content lines cur lastY).
Proof.
  revert lines cur lastY. induction content as [|it rest IH]; intros lines cur lastY H.
  - now apply pushLine_nonempty.
  - cbn [groupLines_go]. destruct lastY as [ly|].
    + destruct (SFltb two (SFabs (sub (y it) ly))); apply IH;
        [now apply pushLine_nonempty | exact H].
    + now apply IH.
Qed.

(** X2.  No line is empty, a page without fragments has no line, and a
    page with a fragment has at least one and at most as many lines as
    fragments. *)
Theorem groupLines_lines (p : page) :
  Forall (fun l => l <> []) (groupLines p)
  /\ (p = [] <-> groupLines p = [])
  /\ length (groupLines p) <= length p.
Proof.
  assert (Hne : Forall (fun l => l <> []) (groupLines p))
    by (apply groupLines_go_nonempty; constructor).
  assert (Hc : concat (groupLines p) = p)
    by (unfold groupLines; now rewrite groupLines_go_concat).
  split; [exact Hne|]. split.
  - split; [now intros -> | intros E; now rewrite E in Hc].
  - rewrite <- Hc at 2. clear Hc. induction Hne as [|l ls Hl _ IH]; [simpl; lia|].
    simpl. rewrite length_app. destruct l; [congruence | simpl; lia].
Qed.

Lemma lastOpt_snoc (l : list item) (a : item) : lastOpt (l ++ [a]) = Some a.
Proof. unfold lastOpt. now rewrite rev_app_distr. Qed.

Lemma chained_snoc (l : list item) (a b : item) :
  chained (l ++ [a]) = true -> far a b = false -> chained ((l ++ [a]) ++ [b]) = true.
Proof.
  intros H Hf. induction l as [|c l IH].
  - simpl. now rewrite Hf.
  - cbn [app] in *. destruct l as [|d l].
    + cbn [app chained] in *. apply andb_true_iff in H as [H1 _].
      now rewrite H1, Hf.
    + cbn [app chained] in H |- *. apply andb_true_iff in H as [H1 H2].
      rewrite H1. cbn [andb]. now apply IH.
Qed.

Lemma separated_snoc (L : list (list item)) (l1 l2 : list item) :
  separated (L ++ [l1]) = true -> boundary l1 l2 = true ->
  separated (L ++ [l1; l2]) = true.
Proof.
  intros H Hb. induction L as [|x L IH].
  - simpl. now rewrite Hb.
  - destruct L as [|z L].
    + cbn [app separated] in *. apply andb_true_iff in H as [H1 _].
      now rewrite H1, Hb.
    + cbn [app separated] in H |- *. apply andb_true_iff in H as [H1 H2].
      rewrite H1. cbn [andb]. now apply IH.
Qed.

Lemma boundary_extend (z l x : list item) :
  l <> [] -> boundary z (l ++ x) = boundary z l.
Proof. intros H. destruct l as [|a l]; [congruence | reflexivity]. Qed.

Lemma separated_extend (L : list (list item)) (l x : list item) :
  l <> [] -> separated (L ++ [l]) = true -> separated (L ++ [l ++ x]) = true.
Proof.
  intros Hl H. induction L as [|z L IH]; [reflexivity|].
  destruct L as [|w L].
  - cbn [app separated] in *. now rewrite boundary_extend.
  - cbn [app separated] in H |- *. apply andb_true_iff in H as [H1 H2].
    rewrite H1. cbn [andb]. now apply IH.
Qed.

Lemma groupLines_go_grouping (content : list item) (lines : list (list item))
  (cur : list item) (lastY : option num) :
  grouping lines cur lastY ->
  forallb chained (groupLines_go content lines cur lastY) = true
  /\ separated (groupLines_go content lines cur lastY) = true.
Proof.
  revert lines cur lastY.
  induction content as [|it rest IH]; intros lines cur lastY (Hy & Hc & Hcur & Hs).
  - cbn [groupLines_go]. split; [|exact Hs].
    destruct cur as [|a cur]; [exact Hc|].
    cbn [pushLine]. rewrite forallb_app, Hc. cbn [forallb]. now rewrite Hcur.
  - cbn [groupLines_go].
    destruct (lastOpt cur) as [a|] eqn:Ea.
    + assert (Hsn : exists c', cur = c' ++ [a]).
      { unfold lastOpt in Ea. destruct (rev cur) as [|a' r] eqn:Er; [discriminate|].
        injection Ea as ->. exists (rev r).
        rewrite <- (rev_involutive cur), Er. reflexivity. }
      destruct Hsn as [c' ->]. rewrite Hy.
      assert (Hpush : pushLine lines (c' ++ [a]) = lines ++ [c' ++ [a]])
        by (destruct c'; reflexivity).
      rewrite Hpush in *.
      change (SFltb two (SFabs (sub (y it) (y a)))) with (far a it).
      destruct (far a it) eqn:Hf; apply IH; unfold grouping.
      * change (lastOpt [it]) with (Some it). repeat split.
        -- rewrite forallb_app, Hc. cbn [forallb]. now rewrite Hcur.
        -- cbn [pushLine]. rewrite <- app_assoc. cbn [app].
           apply separated_snoc; [exact Hs|].
           unfold boundary. now rewrite lastOpt_snoc.
      * rewrite lastOpt_snoc. repeat split; [exact Hc | now apply chained_snoc |].
        assert (Hp2 : pushLine lines ((c' ++ [a]) ++ [it]) = lines ++ [(c' ++ [a]) ++ [it]])
          by (destruct c'; reflexivity).
        rewrite Hp2. apply separated_extend; [now destruct c' | exact Hs].
    + destruct Hy as [-> ->].
      assert (cur = []) as ->.
      { unfold lastOpt in Ea. destruct (rev cur) eqn:Er; [|discriminate].
        rewrite <- (rev_involutive cur), Er. reflexivity. }
      apply IH. unfold grouping. change (lastOpt ([] ++ [it])) with (Some it).
      repeat split.
Qed.

(** X3.  Inside a line every fragment lies within the tolerance of two
    units of the fragment before it, and every line starts more than two
    units away from the end of the line before: the lines are the maximal
    runs of the page. *)
Theorem groupLines_runs (p : page) :
  forallb chained (groupLines p) = true /\ separated (groupLines p) = true.
Proof.
  apply groupLines_go_grouping. unfold grouping. change (lastOpt []) with (@None item).
  repeat split.
Qed.

(* ================================================================== *)
(** ** Repeated lines *)
(* ================================================================== *)


Lemma getOwn_None (o : props) (k : jstring) :
  getOwn o k = None -> ~ In k (map fst o).
Proof.
  induction o as [|[a x] o IH]; intros H; [intros []|].
  rewrite getOwn_cons in H. cbn [fst snd] in H.
  destruct (JS.eqb a k) eqn:E; [discriminate|].
  apply eqb_neq in E. intros [Hin | Hin]; [now apply E | now apply IH].
Qed.

Lemma In_getOwn (o : props) (k : jstring) (v : count) :
  NoDup (map fst o) -> In (k, v) o -> getOwn o k = Some v.
Proof.
  induction o as [|[a x] o IH]; intros Hnd Hin; [destruct Hin|].
  rewrite getOwn_cons. cbn [fst snd]. inversion Hnd as [|? ? Hna Hnd']; subst.
  destruct Hin as [E | Hin].
  - injection E as -> ->. now rewrite eqb_refl.
  - destruct (JS.eqb a k) eqn:E; [|now apply IH].
    apply eqb_eq in E. subst a. exfalso. apply Hna.
    now apply (in_map fst _ (k, v)).
Qed.

Lemma setOwn_fresh (o : props) (k : jstring) (v : count) :
  getOwn o k = None -> setOwn o k v = o ++ [(k, v)].
Proof. unfold setOwn. now intros ->. Qed.

Lemma setOwn_present (o : props) (k : jstring) (v w : count) :
  getOwn o k = Some w ->
  setOwn o k v = map (fun kv => if JS.eqb (fst kv) k then (k, v) else kv) o.
Proof. unfold setOwn. now intros ->. Qed.

Lemma update_keys (o : props) (k : jstring) (v : count) :
  map fst (map (fun kv => if JS.eqb (fst kv) k then (k, v) else kv) o) = map fst o.
Proof.
  rewrite map_map. apply map_ext. intros [a x]. cbn [fst].
  destruct (JS.eqb a k) eqn:E; [apply eqb_eq in E; now subst | reflexivity].
Qed.

Lemma update_In (o : props) (k k' : jstring) (v v' : count) :
  In (k', v') (map (fun kv => if JS.eqb (fst kv) k then (k, v) else kv) o) ->
  (k' = k /\ v' = v) \/ (k' <> k /\ In (k', v') o).
Proof.
  intros H. apply in_map_iff in H as [[a x] [E Hin]]. cbn [fst] in E.
  destruct (JS.eqb a k) eqn:Eak.
  - injection E as <- <-. now left.
  - injection E as <- <-. right. split; [now apply eqb_neq | exact Hin].
Qed.

Lemma occurrences_snoc_other (k l : jstring) (ls : list jstring) :
  k <> l -> occurrences k (ls ++ [l]) = occurrences k ls.
Proof.
  intros H. rewrite occurrences_app. unfold occurrences at 2. cbn [filter].
  apply eqb_neq in H. rewrite H. cbn [length]. lia.
Qed.

Lemma occurrences_snoc_same (k : jstring) (ls : list jstring) :
  occurrences k (ls ++ [k]) = S (occurrences k ls).
Proof.
  rewrite occurrences_app. unfold occurrences at 2. cbn [filter].
  rewrite eqb_refl. cbn [length]. lia.
Qed.

Lemma tallied_weaken (ls : list jstring) (l : jstring) (o : props) :
  ~ In l (map fst o) -> tallied ls o -> tallied (ls ++ [l]) o.
Proof.
  intros Hl [Hnd H]. split; [exact Hnd|]. intros k v Hin.
  destruct (H k v Hin) as (H1 & H2 & H3). split; [exact H1|].
  split; [apply in_or_app; now left|].
  rewrite occurrences_snoc_other; [exact H3|].
  intros ->. apply Hl. now apply (in_map fst _ (l, v)).
Qed.

Lemma tallied_update (ls : list jstring) (l : jstring) (o : props) (v w : count) :
  l <> [] -> getOwn o l = Some w ->
  (if inherited l then v = NaS else v = Num (occurrences l (ls ++ [l]))) ->
  tallied ls o ->
  tallied (ls ++ [l]) (setOwn o l v).
Proof.
  intros Hl Hget Hv [Hnd H]. rewrite (setOwn_present _ _ _ _ Hget). split.
  - now rewrite update_keys.
  - intros k x Hin. apply update_In in Hin as [[-> ->] | [Hk Hin]].
    + split; [exact Hl|]. split; [apply in_or_app; right; now left | exact Hv].
    + destruct (H k x Hin) as (H1 & H2 & H3). split; [exact H1|].
      split; [apply in_or_app; now left|].
      now rewrite occurrences_snoc_other.
Qed.

Lemma tallied_append (ls : list jstring) (l : jstring) (o : props) (v : count) :
  l <> [] -> getOwn o l = None ->
  (if inherited l then v = NaS else v = Num (occurrences l (ls ++ [l]))) ->
  tallied ls o ->
  tallied (ls ++ [l]) (setOwn o l v).
Proof.
  intros Hl Hget Hv [Hnd H]. rewrite (setOwn_fresh _ _ _ Hget).
  pose proof (getOwn_None _ _ Hget) as Hfresh. split.
  - rewrite map_app. cbn [map fst].
    apply NoDup_app; [exact Hnd | repeat constructor; intros [] |].
    intros k Hk [<- | []]. contradiction.
  - intros k x Hin. apply in_app_or in Hin as [Hin | [E | []]].
    + destruct (H k x Hin) as (H1 & H2 & H3). split; [exact H1|].
      split; [apply in_or_app; now left|].
      rewrite occurrences_snoc_other; [exact H3|].
      intros ->. apply Hfresh. now apply (in_map fst _ (l, x)).
    + injection E as <- <-. split; [exact Hl|].
      split; [apply in_or_app; right; now left | exact Hv].
Qed.

Lemma tallied_bump (ls : list jstring) (o : props) (l : jstring) :
  counted ls o -> tallied ls o -> tallied (ls ++ [l]) (bump o l).
Proof.
  intros Hc Ht. unfold bump. destruct l as [|c l].
  - cbn [truthy]. destruct Ht as [Hnd H]. split; [exact Hnd|].
    intros k v Hin. destruct (H k v Hin) as (H1 & H2 & H3). split; [exact H1|].
    split; [apply in_or_app; now left|]. now rewrite occurrences_snoc_other.
  - cbn [truthy]. assert (Hl : c :: l <> []) by discriminate.
    destruct (getOwn o (c :: l)) as [[n|]|] eqn:Hget.
    + apply (tallied_update _ _ _ _ _ Hl Hget); [|exact Ht].
      destruct Ht as [_ H]. destruct (H _ _ (getOwn_In _ _ _ Hget)) as (_ & _ & H3).
      destruct (inherited (c :: l)); [discriminate H3|].
      injection H3 as ->. now rewrite occurrences_snoc_same.
    + apply (tallied_update _ _ _ _ _ Hl Hget); [|exact Ht].
      destruct Ht as [_ H]. destruct (H _ _ (getOwn_In _ _ _ Hget)) as (_ & _ & H3).
      destruct (inherited (c :: l)); [reflexivity | discriminate H3].
    + destruct (inherited (c :: l)) eqn:Hinh.
      * destruct (JS.eqb (c :: l) (s2j "__proto__")).
        -- apply tallied_weaken; [now apply getOwn_None | exact Ht].
        -- apply (tallied_append _ _ _ _ Hl Hget); [now rewrite Hinh | exact Ht].
      * apply (tallied_append _ _ _ _ Hl Hget); [|exact Ht]. rewrite Hinh.
        rewrite occurrences_snoc_same. pose proof (Hc _ Hl Hinh) as Hk.
        rewrite Hget in Hk. destruct (occurrences (c :: l) ls); [reflexivity | discriminate Hk].
Qed.

Lemma tallied_fold (ls done : list jstring) (o : props) :
  counted done o -> tallied done o ->
  tallied (done ++ ls) (fold_left bump ls o).
Proof.
  revert done o. induction ls as [|l ls IH]; intros done o Hc Ht.
  - now rewrite app_nil_r.
  - cbn [fold_left]. replace (done ++ l :: ls) with ((done ++ [l]) ++ ls)
      by now rewrite <- app_assoc.
    apply IH; [now apply counted_bump | now apply tallied_bump].
Qed.

Lemma tallied_all (ls : list jstring) : tallied ls (fold_left bump ls []).
Proof.
  apply (tallied_fold ls [] []).
  - intros k _ _. reflexivity.
  - split; [constructor | intros k v []].
Qed.

Lemma In_occurrences (k : jstring) (l : list jstring) :
  In k l -> 1 <= occurrences k l.
Proof.
  unfold occurrences. induction l as [|a l IH]; intros H; [destruct H|].
  simpl. destruct (JS.eqb k a) eqn:E; [simpl; lia|].
  destruct H as [-> | H]; [now rewrite eqb_refl in E | now apply IH].
Qed.

(** X4.  A string is reported as repeated exactly when it is non-empty,
    is not a property name every object inherits, occurs among the
    samples, and its number of occurrences reaches
    [Math.floor(pageCount * 0.7)]. *)
Theorem findRepeatedLines_spec (n : nat) (ls : list jstring) (k : jstring) :
  In k (findRepeatedLines n ls) <->
  k <> [] /\ inherited k = false /\ 1 <= occurrences k ls
  /\ reaches (occurrences k ls) n = true.
Proof.
  split.
  - intros H. apply findRepeatedLines_In in H as [v [Hin Hv]].
    destruct (tallied_all ls) as [_ Ht].
    destruct (Ht k v Hin) as (H1 & H2 & H3).
    split; [exact H1|]. destruct (inherited k).
    + subst v. discriminate Hv.
    + subst v. repeat split; [now apply In_occurrences | exact Hv].
  - intros (H1 & H2 & H3 & H4). now apply findRepeatedLines_complete.
Qed.

Lemma insertByIndex_perm (i : N) (kv : jstring * count)
  (l : list (N * (jstring * count))) :
  Permutation (insertByIndex i kv l) ((i, kv) :: l).
Proof.
  induction l as [|[j x] l IH]; simpl; [reflexivity|].
  destruct (i <? j)%N; [reflexivity|].
  rewrite IH. apply perm_swap.
Qed.

Lemma Object_entries_perm (o : props) : Permutation (Object_entries o) o.
Proof.
  unfold Object_entries, named. induction o as [|kv o IH]; [reflexivity|].
  cbn [indexed filter]. destruct (arrayIndex (fst kv)) as [i|].
  - rewrite insertByIndex_perm. cbn [map snd app]. now constructor.
  - rewrite <- Permutation_middle. now constructor.
Qed.

Lemma NoDup_keys_filter (f : jstring * count -> bool) (o : props) :
  NoDup (map fst o) -> NoDup (map fst (filter f o)).
Proof.
  induction o as [|kv o IH]; intros H; [constructor|].
  inversion H as [|? ? Hn Hnd]; subst. cbn [filter].
  destruct (f kv); [|now apply IH].
  cbn [map]. constructor; [|now apply IH].
  intros Hin. apply Hn. apply in_map_iff in Hin as [x [Hx Hin]].
  apply filter_In in Hin as [Hin _]. rewrite <- Hx. now apply in_map.
Qed.

(** X5.  No string is reported twice. *)
Theorem findRepeatedLines_NoDup (n : nat) (ls : list jstring) :
  NoDup (findRepeatedLines n ls).
Proof.
  unfold findRepeatedLines. apply NoDup_keys_filter.
  destruct (tallied_all ls) as [Hnd _].
  apply (Permutation_NoDup (l := map fst (fold_left bump ls []))); [|exact Hnd].
  apply Permutation_map. symmetry. apply Object_entries_perm.
Qed.

(* ================================================================== *)
(** ** The body of the geometric reflow *)
(* ================================================================== *)

Lemma bodyBlocks_concat (hs fs : list jstring) (apb : list (list (list item))) :
  bodyBlocks hs fs apb
  = flat_map (fun line => optList (lineBlock hs fs line)) (concat apb).
Proof.
  unfold bodyBlocks. induction apb as [|lines apb IH]; [reflexivity|].
  cbn [flat_map concat]. now rewrite flat_map_app, IH.
Qed.

Lemma lineBlock_text (hs fs : list jstring) (line : list item) :
  map btext (optList (lineBlock hs fs line))
  = if kept hs fs (lineText line) then [lineText line] else [].
Proof.
  unfold lineBlock, kept.
  destruct (truthy (lineText line)); [|reflexivity].
  destruct (includes hs (lineText line)); [reflexivity|].
  destruct (includes fs (lineText line)); [reflexivity|].
  now destruct (isHeading line).
Qed.

(** X6.  The body keeps the reading order: its texts are the texts of
    the lines, page after page, without the empty ones and the repeated
    headers and footers; so the output never has more blocks than the
    document has lines, plus the header and the footer. *)
Theorem body_reading_order (pages : list page) :
  map btext (body pages)
  = filter (kept (repeatedHeaders (parsePDF pages)) (repeatedFooters (parsePDF pages)))
      (map lineText (allLines pages))
  /\ length (blocks (parsePDF pages)) <= length (allLines pages) + 2.
Proof.
  assert (E : map btext (body pages)
              = filter (kept (repeatedHeaders (parsePDF pages))
                             (repeatedFooters (parsePDF pages)))
                  (map lineText (allLines pages))).
  { unfold body, allLines. rewrite bodyBlocks_concat.
    induction (concat (allPageBlocks pages)) as [|line L IH]; [reflexivity|].
    cbn [flat_map map filter]. rewrite map_app, lineBlock_text, IH.
    now destruct (kept _ _ (lineText line)). }
  split; [exact E|].
  rewrite blocks_parsePDF, !length_app.
  assert (Hb : length (body pages) <= length (allLines pages)).
  { rewrite <- (length_map btext), E, <- (length_map lineText (allLines pages)).
    apply filter_length_le. }
  assert (Hh : forall hs, length (headerBlock hs) <= 1)
    by (intros [|h hs]; simpl; lia).
  pose proof (Hh (repeatedHeaders (parsePDF pages))).
  pose proof (Hh (repeatedFooters (parsePDF pages))). lia.
Qed.

(* ================================================================== *)
(** ** Strategy A: segments and composition *)
(* ================================================================== *)

Lemma split_go_nonempty (sep : jstring) (k : nat) (s : jstring) :
  split_go sep k s <> [].
Proof.
  revert k. induction s as [|c s IH]; intros k; [discriminate|].
  cbn [split_go]. destruct k as [|k]; [|apply IH].
  destruct (isPrefix sep (c :: s)); [discriminate|].
  specialize (IH 0). destruct (split_go sep 0 s); [congruence | discriminate].
Qed.

Lemma join_cons (sep p : jstring) (ps : list jstring) :
  ps <> [] -> join sep (p :: ps) = p ++ sep ++ join sep ps.
Proof. destruct ps; [congruence | reflexivity]. Qed.

Lemma join_consHead (sep : jstring) (c : char16) (ps : list jstring) :
  ps <> [] -> join sep (consHead c ps) = c :: join sep ps.
Proof.
  destruct ps as [|p ps]; [congruence|]. intros _.
  destruct ps as [|q ps]; reflexivity.
Qed.

(** Joining the pieces of a split with the separator gives the string
    back. *)
Lemma join_split_go (sep : jstring) (k : nat) (s : jstring) :
  sep <> [] -> join sep (split_go sep k s) = skipn k s.
Proof.
  intros Hsep. revert k. induction s as [|c s IH]; intros k.
  - now destruct k.
  - cbn [split_go]. destruct k as [|k]; [|apply IH].
    destruct (isPrefix sep (c :: s)) eqn:Hp.
    + rewrite join_cons by apply split_go_nonempty. rewrite IH.
      apply isPrefix_spec in Hp as [b Hb]. destruct sep as [|d sep']; [congruence|].
      injection Hb as -> ->.
      cbn [length]. rewrite Nat.sub_succ, Nat.sub_0_r.
      cbn [app]. f_equal. rewrite skipn_app, skipn_all, Nat.sub_diag. reflexivity.
    + rewrite join_consHead by apply split_go_nonempty. now rewrite IH.
Qed.

Lemma join_split (sep s : jstring) : sep <> [] -> join sep (split s sep) = s.
Proof. intros H. unfold split. now rewrite join_split_go. Qed.

Lemma split_go_incl (sep : jstring) (k : nat) (s p : jstring) (c : char16) :
  In p (split_go sep k s) -> In c p -> In c s.
Proof.
  revert k p. induction s as [|d s IH]; intros k p Hp Hc.
  - destruct Hp as [<- | []]. destruct Hc.
  - cbn [split_go] in Hp. destruct k as [|k]; [|right; now apply (IH k p)].
    destruct (isPrefix sep (d :: s)).
    + destruct Hp as [<- | Hp]; [destruct Hc | right; eapply IH; eassumption].
    + destruct (split_go sep 0 s) as [|q qs] eqn:E;
        [now destruct (split_go_nonempty sep 0 s)|].
      cbn [consHead] in Hp. destruct Hp as [<- | Hp].
      * destruct Hc as [-> | Hc]; [now left | right].
        apply (IH 0 q); [rewrite E; now left | exact Hc].
      * right. apply (IH 0 p); [rewrite E; now right | exact Hc].
Qed.

Lemma trimStart_blank (s : jstring) :
  forallb isWhiteSpace s = true -> trimStart s = [].
Proof.
  induction s as [|c s IH]; [reflexivity|]. cbn [forallb trimStart].
  intros H. apply andb_true_iff in H as [-> H]. now apply IH.
Qed.

(** A string trims to nothing exactly when it holds only white space. *)
Lemma trim_blank (s : jstring) :
  truthy (trim s) = false <-> forallb isWhiteSpace s = true.
Proof.
  split.
  - intros H. destruct (trimStart_suffix s) as [w1 [H1 Hw1]].
    destruct (trimEnd_prefix (trimStart s)) as [w2 [H2 Hw2]].
    fold (trim s) in H2. destruct (trim s) as [|c t]; [|discriminate H].
    rewrite H1, H2. cbn [app]. rewrite forallb_app. now rewrite Hw1, Hw2.
  - intros H. unfold trim. now rewrite (trimStart_blank _ H).
Qed.

Lemma forallb_join (f : char16 -> bool) (sep : jstring) (ps : list jstring) :
  forallb f sep = true -> Forall (fun p => forallb f p = true) ps ->
  forallb f (join sep ps) = true.
Proof.
  intros Hsep H. induction H as [|p ps Hp _ IH]; [reflexivity|].
  destruct ps as [|q ps]; [exact Hp|].
  rewrite join_cons by discriminate. rewrite !forallb_app.
  now rewrite Hp, Hsep, IH.
Qed.

(** X7.  Strategy A yields no block exactly when the text holds nothing
    but white space (the empty text included). *)
Theorem textToNotionBlocks_nil (text : jstring) :
  textToNotionBlocks text = [] <-> forallb isWhiteSpace text = true.
Proof.
  unfold textToNotionBlocks. split.
  - intros H. apply map_eq_nil in H.
    rewrite <- (join_split NN text) by discriminate.
    apply forallb_join; [reflexivity|]. apply Forall_forall. intros p Hp.
    apply trim_blank. destruct (truthy (trim p)) eqn:E; [|reflexivity].
    assert (Hin : In p (paragraphs text)) by (apply in_paragraphs; now split).
    rewrite H in Hin. destruct Hin.
  - intros H.
    assert (E : forall ps, (forall p, In p ps -> In p (split text NN)) ->
                filter (fun p => truthy (trim p)) ps = []).
    { induction ps as [|p ps IH]; intros Hps; [reflexivity|].
      cbn [filter]. replace (truthy (trim p)) with false.
      - apply IH. intros q Hq. apply Hps. now right.
      - symmetry. apply trim_blank. apply forallb_forall. intros c Hc.
        rewrite forallb_forall in H. apply H.
        apply (split_go_incl NN 0 text p c); [apply Hps; now left | exact Hc]. }
    unfold paragraphs. now rewrite E.
Qed.

Lemma endsWith_LF_cons (c : char16) (s : jstring) :
  endsWith (c :: s) [LF]
  = match s with [] => (LF =? c)%N | _ :: _ => endsWith s [LF] end.
Proof.
  unfold endsWith. cbn [rev app]. destruct s as [|d s].
  - cbn [rev app isPrefix]. now rewrite andb_true_r.
  - destruct (rev (d :: s)) as [|e r] eqn:E.
    + apply (f_equal (@length _)) in E. rewrite length_rev in E. discriminate E.
    + reflexivity.
Qed.

Lemma consHead_app (c : char16) (l1 l2 : list jstring) :
  l1 <> [] -> consHead c (l1 ++ l2) = consHead c l1 ++ l2.
Proof. destruct l1; [congruence | reflexivity]. Qed.

(** A separator that follows a text not ending in a newline is found
    where it stands: the pieces are those of the two sides. *)
Lemma split_NN_concat (a b : jstring) :
  endsWith a [LF] = false ->
  split_go NN 0 (a ++ NN ++ b) = split_go NN 0 a ++ split_go NN 0 b
  /\ (a <> [] ->
      split_go NN 1 (a ++ NN ++ b) = split_go NN 1 a ++ split_go NN 0 b).
Proof.
  induction a as [|c a IH]; intros Hend.
  - split; [reflexivity | congruence].
  - rewrite endsWith_LF_cons in Hend.
    assert (IHa : split_go NN 0 (a ++ NN ++ b) = split_go NN 0 a ++ split_go NN 0 b
                  /\ (a <> [] -> split_go NN 1 (a ++ NN ++ b)
                                 = split_go NN 1 a ++ split_go NN 0 b)).
    { destruct a as [|d a]; [split; [reflexivity | congruence] | now apply IH]. }
    destruct IHa as [IH0 IH1]. split; [|intros _; exact IH0].
    rewrite <- app_comm_cons. cbn [split_go]. rewrite !isPrefix_NN.
    destruct a as [|d a].
    + cbn [app]. unfold NN at 1. rewrite Hend. cbn [andb]. reflexivity.
    + cbn [app]. destruct ((LF =? c)%N && (LF =? d)%N).
      * cbn [app]. f_equal. apply IH1. discriminate.
      * cbn [app] in IH0. rewrite IH0. apply consHead_app, split_go_nonempty.
Qed.

(** X8.  Strategy A composes over blank lines: when the first text does
    not end in a newline, the blocks of two texts joined by a blank line
    are the blocks of the first followed by the blocks of the second. *)
Theorem textToNotionBlocks_app (a b : jstring) :
  endsWith a [LF] = false ->
  textToNotionBlocks (a ++ NN ++ b) = textToNotionBlocks a ++ textToNotionBlocks b.
Proof.
  intros H. unfold textToNotionBlocks, paragraphs, split.
  rewrite (proj1 (split_NN_concat a b H)). now rewrite filter_app, map_app.
Qed.

Lemma textToNotionBlocks_app_witness :
  textToNotionBlocks (s2j "Summary" ++ NN ++ s2j "- a.")
  = textToNotionBlocks (s2j "Summary") ++ textToNotionBlocks (s2j "- a.").
Proof. apply textToNotionBlocks_app. reflexivity. Defined.

Lemma hasNewline_false (s : jstring) : hasNewline s = false <-> ~ In LF s.
Proof.
  unfold hasNewline. split.
  - intros H Hin. assert (E : existsb (N.eqb LF) s = true).
    { apply existsb_exists. exists LF. split; [exact Hin | apply N.eqb_refl]. }
    congruence.
  - intros H. destruct (existsb (N.eqb LF) s) eqn:E; [|reflexivity].
    apply existsb_exists in E as [c [Hc E]]. apply N.eqb_eq in E. now subst.
Qed.

Lemma no_newline_piece (s : jstring) :
  hasNewline s = false -> occurs NN s = false /\ endsWith s [LF] = false.
Proof.
  intros H. apply hasNewline_false in H. split.
  - destruct (occurs NN s) eqn:E; [|reflexivity].
    apply occurs_spec in E as [a [b ->]]. exfalso. apply H.
    apply in_or_app. right. now left.
  - destruct (endsWith s [LF]) eqn:E; [|reflexivity].
    unfold endsWith in E. apply isPrefix_spec in E as [b Hb].
    exfalso. apply H. apply in_rev. rewrite Hb. now left.
Qed.

Lemma split_join_lines (ps : list jstring) :
  ps <> [] -> Forall (fun p => hasNewline p = false) ps ->
  split (join NN ps) NN = ps.
Proof.
  unfold split. induction ps as [|p ps IH]; intros Hne Hall; [congruence|].
  inversion Hall as [|? ? Hp Hall']; subst.
  destruct (no_newline_piece p Hp) as [Hocc Hend].
  destruct ps as [|q ps].
  - cbn [join]. now apply split_go_none.
  - rewrite join_cons by discriminate.
    rewrite (proj1 (split_NN_concat p _ Hend)), (split_go_none _ _ Hocc).
    cbn [app]. f_equal. apply IH; [discriminate | exact Hall'].
Qed.

Lemma hasNewline_join_space (l : list jstring) :
  Forall (fun s => hasNewline s = false) l -> hasNewline (join [SPACE] l) = false.
Proof.
  intros H. induction H as [|s l Hs _ IH]; [reflexivity|].
  destruct l as [|t l]; [exact Hs|].
  rewrite join_cons by discriminate. unfold hasNewline in *.
  rewrite !existsb_app.
  apply orb_false_iff. split; [exact Hs|].
  apply orb_false_iff. split; [reflexivity | exact IH].
Qed.

(** X9.  On the raw extracted text of a document whose fragments hold no
    line feed, the paragraphs of Strategy A are the page texts that are
    not blank, in page order: one block per such page, never more blocks
    than pages. *)
Theorem flat_text_blocks (infoTitle : option jstring) (pages : list page) :
  noNewlines pages = true ->
  textToNotionBlocks (Flat.text (Flat.parsePDF infoTitle pages))
  = map classify (filter (fun q => truthy (trim q)) (map Flat.pageText pages))
  /\ length (textToNotionBlocks (Flat.text (Flat.parsePDF infoTitle pages)))
     <= length pages.
Proof.
  intros H. cbn [Flat.parsePDF Flat.text].
  assert (E : paragraphs (join NN (map Flat.pageText pages))
              = filter (fun q => truthy (trim q)) (map Flat.pageText pages)).
  { unfold paragraphs. destruct pages as [|p pages]; [reflexivity|].
    rewrite split_join_lines; [reflexivity | discriminate |].
    apply Forall_forall. intros t Ht. apply in_map_iff in Ht as [pg [<- Hpg]].
    unfold noNewlines in H. rewrite forallb_forall in H. specialize (H pg Hpg).
    apply hasNewline_join_space. apply Forall_forall. intros s Hs.
    apply in_map_iff in Hs as [i [<- Hi]]. rewrite forallb_forall in H.
    specialize (H i Hi). now apply negb_true_iff in H. }
  unfold textToNotionBlocks. rewrite E. split; [reflexivity|].
  rewrite length_map. rewrite <- (length_map Flat.pageText pages).
  apply filter_length_le.
Qed.

Lemma flat_text_blocks_witness :
  textToNotionBlocks (Flat.text (Flat.parsePDF None twoPages))
  = map classify (filter (fun q => truthy (trim q)) (map Flat.pageText twoPages))
  /\ length (textToNotionBlocks (Flat.text (Flat.parsePDF None twoPages)))
     <= length twoPages.
Proof. apply flat_text_blocks. reflexivity. Defined.

(* ================================================================== *)
(** ** Publishing: truncation and the handler on a JSON body *)
(* ================================================================== *)

(** X10.  The payload holds the images of the first hundred blocks, in
    order: all of them when there are at most a hundred, exactly a
    hundred otherwise. *)
Theorem children_truncates (bs : list block) :
  children bs = map toNotionBlock (firstn 100 bs)
  /\ length (children bs) = Nat.min 100 (length bs)
  /\ (length bs <= 100 -> children bs = map toNotionBlock bs)
  /\ (100 <= length bs -> length (children bs) = 100).
Proof.
  unfold children. rewrite firstn_map. split; [reflexivity|].
  rewrite length_map, length_firstn. split; [reflexivity|]. split.
  - intros H. now rewrite firstn_all2.
  - intros H. lia.
Qed.

Lemma children_truncates_witness :
  children (repeat (mkBlock paragraph (s2j "x")) 150)
  = map toNotionBlock (firstn 100 (repeat (mkBlock paragraph (s2j "x")) 150))
  /\ length (children (repeat (mkBlock paragraph (s2j "x")) 150)) = 100.
Proof.
  destruct (children_truncates (repeat (mkBlock paragraph (s2j "x")) 150))
    as (H1 & _ & _ & H4).
  split; [exact H1 | apply H4]. rewrite repeat_length. lia.
Defined.

Lemma mapRes_throw (A B : Type) (f : A -> res B) (l : list A) (a : A) :
  In a l -> f a = Throw -> mapRes f l = Throw.
Proof.
  intros Hin Hf. induction l as [|x l IH]; [destruct Hin|].
  cbn [mapRes]. destruct Hin as [-> | Hin].
  - now rewrite Hf.
  - destruct (f x); [|reflexivity]. cbn [bind]. now rewrite (IH Hin).
Qed.

Lemma mapRes_ok (A B : Type) (f : A -> res B) (g : A -> B) (l : list A) :
  (forall a, In a l -> f a = Ok (g a)) -> mapRes f l = Ok (map g l).
Proof.
  induction l as [|x l IH]; intros H; [reflexivity|].
  cbn [mapRes map]. rewrite (H x (or_introl eq_refl)). cbn [bind].
  rewrite IH; [reflexivity|]. intros a Ha. apply H. now right.
Qed.

(** X11.  A request with an object body is answered 400 exactly when its
    title is missing or falsy or its blocks are not an array; an empty
    array passes. *)
Theorem createPage_rejects (numToBoolean : jstring -> bool)
  (ms : list (jstring * json)) :
  Create.createPage numToBoolean (JObject ms) = Create.BadRequest <->
  truthyV numToBoolean (lookupLast (s2j "title") ms) = false
  \/ (forall l, lookupLast (s2j "blocks") ms <> Some (JArray l)).
Proof.
  unfold Create.createPage. cbn [Create.read Create.fieldName].
  destruct (lookupLast (s2j "title") ms) as [t|];
    [|split; [intros _; now left | reflexivity]].
  cbn [truthyV]. destruct (truthyJ numToBoolean t) eqn:Et;
    [|split; [intros _; now left | reflexivity]].
  cbn [negb orb].
  destruct (lookupLast (s2j "blocks") ms) as [j|];
    [|split; [intros _; right; intros l'; discriminate | reflexivity]].
  assert (Hother : (forall l, j <> JArray l) ->
            (if negb (truthyV numToBoolean (Some j))
             then Create.BadRequest
             else match j with
                  | JArray l =>
                      match mapRes Create.toApiBlock l with
                      | Ok cs => Create.CreatePage t (firstn 100 cs)
                      | Throw => Create.ServerError
                      end
                  | _ => Create.BadRequest
                  end) = Create.BadRequest).
  { intros Hj. destruct (negb (truthyV numToBoolean (Some j))); [reflexivity|].
    destruct j; try reflexivity. now destruct (Hj elements). }
  destruct j as [|b|lx|s0|l|ms'];
    try (split; [intros _; right; intros l' H'; discriminate H'
                | intros _; apply Hother; intros l'; discriminate]).
  cbn [truthyV truthyJ negb]. split.
  - destruct (mapRes Create.toApiBlock l); discriminate.
  - intros [H | H]; [discriminate H | now destruct (H l)].
Qed.

(** X12.  A [null] among the blocks fails the request with 500 wherever
    it stands, also beyond the hundredth position: every block is mapped
    before the list is cut. *)
Theorem createPage_null_block (numToBoolean : jstring -> bool)
  (ms : list (jstring * json)) (t : json) (l : list json) :
  lookupLast (s2j "title") ms = Some t -> truthyJ numToBoolean t = true ->
  lookupLast (s2j "blocks") ms = Some (JArray l) ->
  In JNull l ->
  Create.createPage numToBoolean (JObject ms) = Create.ServerError.
Proof.
  intros Ht Htt Hb Hin. unfold Create.createPage.
  cbn [Create.read Create.fieldName]. rewrite Ht, Hb. cbn [truthyV truthyJ].
  rewrite Htt. cbn [negb orb].
  now rewrite (mapRes_throw _ _ Create.toApiBlock l JNull Hin eq_refl).
Qed.

Lemma createPage_null_block_witness :
  Create.createPage (fun _ => true)
    (JObject [ (s2j "title", JString (s2j "T"));
               (s2j "blocks",
                JArray (repeat (FrontEnd.blockJson (mkBlock paragraph (s2j "x"))) 100
                        ++ [JNull])) ])
  = Create.ServerError.
Proof.
  apply (createPage_null_block _ _ (JString (s2j "T"))
           (repeat (FrontEnd.blockJson (mkBlock paragraph (s2j "x"))) 100 ++ [JNull]));
    try reflexivity.
  apply in_or_app. right. now left.
Defined.

Lemma toApiBlock_typed (b : block) :
  Create.toApiBlock (FrontEnd.blockJson b) = Ok (liftBlock (toNotionBlock b)).
Proof.
  unfold Create.toApiBlock, FrontEnd.blockJson, liftBlock, toNotionBlock.
  cbn [Create.read Create.fieldName].
  change (lookupLast (s2j "type") _) with (Some (JString (btype b))).
  change (lookupLast (s2j "text") _) with (Some (JString (btext b))).
  cbn [bind Create.kindOf].
  destruct (JS.eqb (btype b) (s2j "heading_2")); [reflexivity|].
  destruct (JS.eqb (btype b) (s2j "bulleted_list_item")); reflexivity.
Qed.

Lemma createPage_typedBody (numToBoolean : jstring -> bool)
  (t : jstring) (bs : list block) :
  truthy t = true ->
  Create.createPage numToBoolean (typedBody t bs)
  = Create.CreatePage (JString t) (map liftBlock (children bs)).
Proof.
  intros Ht. unfold Create.createPage, typedBody.
  cbn [Create.read Create.fieldName].
  change (lookupLast (s2j "title") _) with (Some (JString t)).
  change (lookupLast (s2j "blocks") _)
    with (Some (JArray (map FrontEnd.blockJson bs))).
  cbn [truthyV truthyJ]. rewrite Ht. cbn [negb orb].
  rewrite (mapRes_ok _ _ Create.toApiBlock
             (fun j => match j with
                       | JObject [(_, JString ty); (_, JString tx)] =>
                           liftBlock (toNotionBlock (mkBlock ty tx))
                       | _ => Create.mkApiBlock [] None
                       end)).
  - f_equal. unfold children. rewrite <- !firstn_map. f_equal.
    rewrite !map_map. apply map_ext. now intros [ty tx].
  - intros a Ha. apply in_map_iff in Ha as [[ty tx] [<- _]].
    apply toApiBlock_typed.
Qed.

(** X13.  On a body with a non-empty title and typed blocks the handler
    sends the title and the payload of the typed adapter: the JSON-level
    mapping agrees with [toNotionBlock] and the cut at a hundred. *)
Theorem createPage_typed (numToBoolean : jstring -> bool)
  (t : jstring) (bs : list block) :
  truthy t = true ->
  Create.createPage numToBoolean (typedBody t bs)
  = Create.CreatePage (JString t) (map liftBlock (children bs)).
Proof. apply createPage_typedBody. Qed.

Lemma createPage_typed_witness :
  Create.createPage (fun _ => true) (typedBody (s2j "T") [mkBlock heading_2 (s2j "H")])
  = Create.CreatePage (JString (s2j "T"))
      (map liftBlock (children [mkBlock heading_2 (s2j "H")])).
Proof. apply createPage_typed. reflexivity. Defined.

Lemma chooseTitle_truthy (metaTitle fileName : option jstring) :
  truthy (FrontEnd.chooseTitle metaTitle fileName) = true.
Proof.
  unfold FrontEnd.chooseTitle.
  destruct metaTitle as [[|c t]|]; destruct fileName as [[|d n]|]; reflexivity.
Qed.

(** X14.  A request built by the front end is never answered 400: its
    title is never empty (document title, else file name, else the
    default), and cutting the blocks to a hundred before sending does not
    change the payload the server builds. *)
Theorem frontEnd_request_accepted (numToBoolean : jstring -> bool)
  (metaTitle fileName : option jstring) (processedBlocks : list block) :
  Create.createPage numToBoolean
    (FrontEnd.requestBody metaTitle fileName processedBlocks)
  = Create.CreatePage (JString (FrontEnd.chooseTitle metaTitle fileName))
      (map liftBlock (children processedBlocks))
  /\ FrontEnd.chooseTitle metaTitle fileName <> [].
Proof.
  split.
  - change (FrontEnd.requestBody metaTitle fileName processedBlocks)
      with (typedBody (FrontEnd.chooseTitle metaTitle fileName)
              (firstn 100 processedBlocks)).
    rewrite createPage_typedBody by apply chooseTitle_truthy.
    do 2 f_equal. unfold children. rewrite <- !firstn_map, firstn_firstn.
    reflexivity.
  - apply truthy_nonempty, chooseTitle_truthy.
Qed.

(* ================================================================== *)
(** ** Salvage: what is read back and what is left alone *)
(* ================================================================== *)

(** X15.  The response goes back unchanged whenever it parses to
    something other than an array (an object, a number, a string, ...)
    and whenever it parses to an array with a [null] element. *)
Theorem salvage_keeps_raw (numToBoolean : jstring -> bool)
  (numToString : jstring -> jstring) (raw : jstring) :
  (exists v, JSON_parse (stripFences raw) = Some v /\ forall l, v <> JArray l)
  \/ (exists l, JSON_parse (stripFences raw) = Some (JArray l) /\ In JNull l) ->
  salvage numToBoolean numToString raw = raw.
Proof.
  unfold salvage. intros [[v [-> Hv]] | [l [-> Hin]]].
  - destruct v; try reflexivity. now destruct (Hv elements).
  - now rewrite (mapRes_throw _ _ (extractText numToBoolean) l JNull Hin eq_refl).
Qed.

Lemma salvage_keeps_raw_witness :
  salvage (fun _ => true) (fun lexeme => lexeme) (s2j "[1, null]") = s2j "[1, null]".
Proof.
  apply salvage_keeps_raw. right. exists [JNumber (s2j "1"); JNull].
  split; [vm_compute; reflexivity | right; now left].
Defined.

Lemma join_texts (numToBoolean : jstring -> bool) (numToString : jstring -> jstring)
  (ts : list jstring) :
  mapRes (stringOfV numToString)
    (filter (truthyV numToBoolean) (map (fun t => Some (JString t)) ts))
  = Ok (filter truthy ts).
Proof.
  induction ts as [|t ts IH]; [reflexivity|].
  cbn [map filter truthyV truthyJ]. destruct (truthy t); [|exact IH].
  cbn [mapRes stringOfV toString bind]. now rewrite IH.
Qed.

Lemma extractText_typed (numToBoolean : jstring -> bool) (b : block) :
  extractText numToBoolean (FrontEnd.blockJson b) = Ok (Some (JString (btext b))).
Proof.
  unfold extractText, richTextText, FrontEnd.blockJson. cbn [get keyName].
  change (lookupLast (s2j "paragraph") _) with (@None json).
  change (lookupLast (s2j "heading_1") _) with (@None json).
  change (lookupLast (s2j "text") _) with (Some (JString (btext b))).
  cbn [bind truthyV truthyJ]. now destruct (btext b).
Qed.

(** X16.  An array of [{ type, text }] objects, the shape of the blocks
    of Strategy A, is salvaged to the non-empty texts joined by blank
    lines, whatever the types. *)
Theorem salvage_typed_blocks (numToBoolean : jstring -> bool)
  (numToString : jstring -> jstring) (raw : jstring) (bs : list block) :
  JSON_parse (stripFences raw) = Some (JArray (map FrontEnd.blockJson bs)) ->
  salvage numToBoolean numToString raw = join NN (filter truthy (map btext bs)).
Proof.
  intros H. unfold salvage. rewrite H.
  rewrite (mapRes_ok _ _ (extractText numToBoolean)
             (fun j => match j with
                       | JObject [_; (_, tx)] => Some tx
                       | _ => None
                       end)).
  - rewrite map_map. cbn [FrontEnd.blockJson].
    rewrite <- (map_map btext (fun t => Some (JString t))).
    now rewrite join_texts.
  - intros a Ha. apply in_map_iff in Ha as [b [<- _]]. apply extractText_typed.
Qed.

Lemma salvage_typed_blocks_witness :
  salvage (fun _ => true) (fun lexeme => lexeme) typedHello
  = join NN (filter truthy (map btext [mkBlock paragraph (s2j "Hello")])).
Proof. apply salvage_typed_blocks. vm_compute. reflexivity. Defined.

Lemma extractText_api (numToBoolean : jstring -> bool) (b : block) :
  extractText numToBoolean (notionBlockJson (toNotionBlock b))
  = Ok (Some (JString (if plainBlock b then btext b else []))).
Proof.
  unfold plainBlock, toNotionBlock.
  change (s2j "heading_2") with heading_2.
  change (s2j "bulleted_list_item") with bulleted_list_item.
  destruct (JS.eqb (btype b) heading_2); [reflexivity|].
  destruct (JS.eqb (btype b) bulleted_list_item); [reflexivity|].
  unfold extractText, richTextText, notionBlockJson, container.
  cbn [nb_object nb_type nb_container nb_rich_text map rt_type rt_content get keyName].
  change (lookupLast (s2j "paragraph") _)
    with (Some (JObject
                  [ (s2j "rich_text",
                     JArray [JObject [ (s2j "type", JString (s2j "text"));
                                       (s2j "text",
                                        JObject [(s2j "content", JString (btext b))]) ]]) ])).
  reflexivity.
Qed.

Lemma filter_plain_texts (bs : list block) :
  filter truthy (map (fun b => if plainBlock b then btext b else []) bs)
  = filter truthy (map btext (filter plainBlock bs)).
Proof.
  induction bs as [|b bs IH]; [reflexivity|].
  cbn [map filter]. destruct (plainBlock b); cbn [map filter]; now rewrite IH.
Qed.

(** X17.  Of blocks in the shape the publish adapter sends to the API,
    the salvage step reads back the text of the paragraph blocks only:
    the texts of [heading_2] and [bulleted_list_item] blocks are dropped,
    the handler looking only under [paragraph], [heading_1] and a flat
    [text]. *)
Theorem salvage_api_blocks (numToBoolean : jstring -> bool)
  (numToString : jstring -> jstring) (raw : jstring) (bs : list block) :
  JSON_parse (stripFences raw)
  = Some (JArray (map (fun b => notionBlockJson (toNotionBlock b)) bs)) ->
  salvage numToBoolean numToString raw
  = join NN (filter truthy (map btext (filter plainBlock bs))).
Proof.
  intros H. unfold salvage. rewrite H.
  rewrite (mapRes_ok _ _ (extractText numToBoolean)
             (fun j => match extractText numToBoolean j with
                       | Ok v => v
                       | Throw => None
                       end)).
  - rewrite map_map.
    rewrite (map_ext _ (fun b => Some (JString (if plainBlock b then btext b else []))))
      by (intros b; now rewrite extractText_api).
    rewrite <- (map_map (fun b => if plainBlock b then btext b else [])
                  (fun t => Some (JString t))).
    now rewrite join_texts, filter_plain_texts.
  - intros a Ha. apply in_map_iff in Ha as [b [<- _]].
    now rewrite extractText_api.
Qed.

Lemma salvage_api_blocks_witness :
  salvage (fun _ => true) (fun lexeme => lexeme) apiHello
  = join NN (filter truthy
               (map btext (filter plainBlock [ mkBlock paragraph (s2j "Hello");
                                               mkBlock heading_2 (s2j "Title") ]))).
Proof. apply salvage_api_blocks. vm_compute. reflexivity. Defined.

(** *** Fence removal *)

Lemma split_LF_app (p rest : jstring) :
  hasNewline p = false ->
  split_go [LF] 0 (p ++ LF :: rest) = p :: split_go [LF] 0 rest.
Proof.
  induction p as [|c p IH]; intros H; [reflexivity|].
  unfold hasNewline in H. cbn [existsb] in H.
  apply orb_false_iff in H as [Hc Hp].
  cbn [app split_go isPrefix]. rewrite Hc. cbn [andb].
  now rewrite (IH Hp).
Qed.

Lemma split_LF_pieces (s : jstring) :
  Forall (fun p => hasNewline p = false) (split_go [LF] 0 s).
Proof.
  induction s as [|c s IH]; [now repeat constructor|].
  cbn [split_go isPrefix]. rewrite andb_true_r.
  destruct (LF =? c)%N eqn:E.
  - constructor; [reflexivity | exact IH].
  - destruct (split_go [LF] 0 s) as [|p ps] eqn:Es;
      [now destruct (split_go_nonempty [LF] 0 s)|].
    inversion IH as [|? ? Hp Hps]; subst. cbn [consHead].
    constructor; [|exact Hps]. unfold hasNewline in *. cbn [existsb].
    apply orb_false_iff. split; [exact E | exact Hp].
Qed.

Lemma split_join_LF (ps : list jstring) :
  ps <> [] -> Forall (fun p => hasNewline p = false) ps ->
  split (join [LF] ps) [LF] = ps.
Proof.
  unfold split. induction ps as [|p ps IH]; intros Hne Hall; [congruence|].
  inversion Hall as [|? ? Hp Hall']; subst. destruct ps as [|q ps].
  - cbn [join]. apply split_go_none.
    destruct (occurs [LF] p) eqn:E; [|reflexivity].
    apply occurs_spec in E as [a [b ->]]. apply hasNewline_false in Hp.
    exfalso. apply Hp. apply in_or_app. right. now left.
  - rewrite join_cons by discriminate. cbn [app].
    rewrite (split_LF_app _ _ Hp). f_equal. apply IH; [discriminate | exact Hall'].
Qed.

Lemma filter_idem (A : Type) (f : A -> bool) (l : list A) :
  filter f (filter f l) = filter f l.
Proof. apply filter_all. intros x Hx. now apply filter_In in Hx. Qed.

Lemma stripFences_fenced (raw : jstring) :
  startsWith (trim raw) fence = true ->
  stripFences raw
  = join [LF] (filter (fun line => negb (fenceLine line)) (split raw [LF])).
Proof. unfold stripFences, fenceLine. now intros ->. Qed.

Lemma kept_lines (raw : jstring) :
  Forall (fun p => hasNewline p = false)
    (filter (fun line => negb (fenceLine line)) (split raw [LF])).
Proof.
  apply Forall_forall. intros p Hp. apply filter_In in Hp as [Hp _].
  pose proof (split_LF_pieces raw) as H. rewrite Forall_forall in H. now apply H.
Qed.

(** X18.  Fence removal is idempotent, and after it no line of a fenced
    response opens with three backticks. *)
Theorem stripFences_idem (raw : jstring) :
  stripFences (stripFences raw) = stripFences raw
  /\ (startsWith (trim raw) fence = true ->
      Forall (fun line => fenceLine line = false) (split (stripFences raw) [LF])).
Proof.
  destruct (startsWith (trim raw) fence) eqn:E.
  - rewrite (stripFences_fenced raw E).
    set (keptLines := filter (fun line => negb (fenceLine line)) (split raw [LF])).
    assert (Hsplit : keptLines <> [] -> split (join [LF] keptLines) [LF] = keptLines)
      by (intros Hne; apply split_join_LF; [exact Hne | apply kept_lines]).
    split.
    + destruct keptLines as [|l ls] eqn:Ek; [reflexivity|].
      unfold stripFences. destruct (startsWith (trim (join [LF] (l :: ls))) fence);
        [|reflexivity].
      rewrite Hsplit by discriminate. fold (fenceLine).
      change (fun line => negb (startsWith (trim line) fence))
        with (fun line => negb (fenceLine line)).
      rewrite <- Ek. unfold keptLines. now rewrite filter_idem.
    + intros _. destruct keptLines as [|l ls] eqn:Ek.
      * repeat constructor.
      * rewrite Hsplit by discriminate. rewrite <- Ek. unfold keptLines.
        apply Forall_forall. intros p Hp. apply filter_In in Hp as [_ Hp].
        now apply negb_true_iff in Hp.
  - split; [|discriminate]. unfold stripFences. now rewrite E, E.
Qed.

Lemma stripFences_idem_witness :
  Forall (fun line => fenceLine line = false) (split (stripFences fencedHello) [LF]).
Proof. apply (proj2 (stripFences_idem fencedHello)). reflexivity. Defined.

(* ================================================================== *)
(** ** [cleanText] and [isBulletLine] *)
(* ================================================================== *)

Lemma cleanUnit_passes (text : jstring) :
  forallb cleanUnit
    (Clean.replaceGeometric (Clean.normalizeBullets (Clean.removePrivateUse text)))
  = true.
Proof.
  unfold Clean.replaceGeometric, Clean.normalizeBullets, Clean.removePrivateUse.
  apply forallb_forall. intros c Hc.
  apply in_map_iff in Hc as [c1 [<- Hc]]. apply in_map_iff in Hc as [c0 [<- Hc]].
  apply filter_In in Hc as [_ Hc]. apply negb_true_iff in Hc.
  unfold cleanUnit. destruct (Clean.isBulletSymbol c0) eqn:Eb.
  - reflexivity.
  - destruct (Clean.isGeometric c0) eqn:Eg; [reflexivity|].
    now rewrite Hc, Eg, Eb.
Qed.

Lemma isPrefix_SS (c : char16) (s : jstring) :
  isPrefix SS (c :: s)
  = (SPACE =? c)%N && match s with [] => false | d :: _ => (SPACE =? d)%N end.
Proof.
  unfold SS. cbn [isPrefix]. destruct s as [|d s]; [reflexivity|].
  now rewrite andb_true_r.
Qed.

Lemma collapseSpaces_cons2 (c d : char16) (s : jstring) :
  Clean.collapseSpaces (c :: d :: s)
  = if ((c =? SPACE) && (d =? SPACE))%N
    then Clean.collapseSpaces (d :: s)
    else c :: Clean.collapseSpaces (d :: s).
Proof. reflexivity. Qed.

Lemma collapseSpaces_head (c : char16) (s : jstring) :
  exists t, Clean.collapseSpaces (c :: s) = c :: t.
Proof.
  revert c. induction s as [|d s IH]; intros c; [now exists []|].
  rewrite collapseSpaces_cons2.
  destruct ((c =? SPACE)%N && (d =? SPACE)%N) eqn:E.
  - apply andb_true_iff in E as [Ec Ed]. apply N.eqb_eq in Ec, Ed. subst.
    apply IH.
  - now exists (Clean.collapseSpaces (d :: s)).
Qed.

Lemma occurs_cons (sep : jstring) (c : char16) (s : jstring) :
  occurs sep (c :: s) = isPrefix sep (c :: s) || occurs sep s.
Proof. reflexivity. Qed.

Lemma collapseSpaces_single (s : jstring) :
  occurs SS (Clean.collapseSpaces s) = false.
Proof.
  induction s as [|c s IH]; [reflexivity|].
  destruct s as [|d s].
  { cbn [Clean.collapseSpaces occurs]. rewrite isPrefix_SS.
    now rewrite andb_false_r. }
  rewrite collapseSpaces_cons2.
  destruct ((c =? SPACE)%N && (d =? SPACE)%N) eqn:E; [exact IH|].
  rewrite occurs_cons, IH, orb_false_r.
  destruct (collapseSpaces_head d s) as [t ->]. rewrite isPrefix_SS.
  now rewrite (N.eqb_sym SPACE c), (N.eqb_sym SPACE d).
Qed.

Lemma collapseSpaces_fix (s : jstring) :
  occurs SS s = false -> Clean.collapseSpaces s = s.
Proof.
  induction s as [|c s IH]; intros H; [reflexivity|].
  cbn [occurs] in H. apply orb_false_iff in H as [Hp Hs].
  destruct s as [|d s]; [reflexivity|].
  rewrite collapseSpaces_cons2. rewrite isPrefix_SS in Hp.
  rewrite (N.eqb_sym c SPACE), (N.eqb_sym d SPACE), Hp. f_equal. now apply IH.
Qed.

Lemma collapseSpaces_forallb (f : char16 -> bool) (s : jstring) :
  forallb f s = true -> forallb f (Clean.collapseSpaces s) = true.
Proof.
  induction s as [|c s IH]; intros H; [reflexivity|].
  cbn [forallb] in H. apply andb_true_iff in H as [Hc Hs].
  destruct s as [|d s]; [cbn; now rewrite Hc|].
  rewrite collapseSpaces_cons2. destruct ((c =? SPACE)%N && (d =? SPACE)%N);
    [now apply IH|].
  cbn [forallb]. rewrite Hc. now apply IH.
Qed.

Lemma trim_forallb (f : char16 -> bool) (s : jstring) :
  forallb f s = true -> forallb f (trim s) = true.
Proof.
  intros H. destruct (trim_infix s) as [w1 [w2 Hw]]. rewrite Hw in H.
  rewrite !forallb_app in H. apply andb_true_iff in H as [_ H].
  now apply andb_true_iff in H as [H _].
Qed.

Lemma trim_single (s : jstring) : occurs SS s = false -> occurs SS (trim s) = false.
Proof.
  intros H. destruct (trim_infix s) as [w1 [w2 Hw]]. rewrite Hw in H.
  now apply occurs_infix in H.
Qed.

Lemma cleanText_invariants (text : jstring) :
  forallb cleanUnit (Clean.cleanText text) = true
  /\ occurs SS (Clean.cleanText text) = false
  /\ trimmed (Clean.cleanText text).
Proof.
  unfold Clean.cleanText. split; [|split].
  - apply trim_forallb, collapseSpaces_forallb, cleanUnit_passes.
  - apply trim_single, collapseSpaces_single.
  - apply trim_trimmed.
Qed.

(** X19.  A cleaned text holds no private-use symbol, no geometric
    shape and no bullet-like symbol other than the standard bullet, has
    no two spaces in a row, and no white space at either end. *)
Theorem cleanText_clean (text : jstring) :
  forallb cleanUnit (Clean.cleanText text) = true
  /\ occurs SS (Clean.cleanText text) = false
  /\ trimmed (Clean.cleanText text).
Proof. apply cleanText_invariants. Qed.

Lemma cleanUnit_fixed (s : jstring) :
  forallb cleanUnit s = true ->
  Clean.replaceGeometric (Clean.normalizeBullets (Clean.removePrivateUse s)) = s.
Proof.
  intros H. rewrite forallb_forall in H.
  unfold Clean.replaceGeometric, Clean.normalizeBullets, Clean.removePrivateUse.
  rewrite filter_all.
  - rewrite map_map. apply map_id_in. intros c Hc. specialize (H c Hc).
    unfold cleanUnit in H. apply andb_true_iff in H as [H H3].
    apply andb_true_iff in H as [H1 H2]. apply negb_true_iff in H2.
    destruct (Clean.isBulletSymbol c).
    + cbn [negb orb] in H3. apply N.eqb_eq in H3. subst c. reflexivity.
    + now rewrite H2.
  - intros c Hc. specialize (H c Hc). unfold cleanUnit in H.
    apply andb_true_iff in H as [H _]. now apply andb_true_iff in H as [H _].
Qed.

(** X20.  Cleaning is idempotent: a cleaned text is left as it is. *)
Theorem cleanText_idem (text : jstring) :
  Clean.cleanText (Clean.cleanText text) = Clean.cleanText text.
Proof.
  destruct (cleanText_invariants text) as (H1 & H2 & H3).
  unfold Clean.cleanText at 1.
  now rewrite (cleanUnit_fixed _ H1), (collapseSpaces_fix _ H2), (trimmed_trim _ H3).
Qed.

(** X21.  On a cleaned line the bullet test of the server and the marker
    test of the front end agree: the line is a bullet line exactly when
    it starts with the standard bullet or a hyphen. *)
Theorem isBulletLine_cleaned (text : jstring) :
  Clean.isBulletLine (Clean.cleanText text)
  = startsWithMarker (Clean.cleanText text).
Proof.
  destruct (cleanText_invariants text) as (H & _ & _).
  destruct (Clean.cleanText text) as [|c t]; [reflexivity|].
  cbn [forallb] in H. apply andb_true_iff in H as [H _].
  unfold cleanUnit in H. apply andb_true_iff in H as [H _].
  apply andb_true_iff in H as [H1 H2]. apply negb_true_iff in H1, H2.
  unfold Clean.isBulletLine, startsWithMarker, startsWith. cbn [isPrefix].
  rewrite H1, H2, !orb_false_r, !andb_true_r.
  now rewrite (N.eqb_sym c BULLET), (N.eqb_sym c HYPHEN).
Qed.
